(** * outwright: Outlook-through-the-browser mail sender

    A shallow embedding of [src/outlook_authentication.py] and
    [src/outlook_email_sender.py].

    The two Python modules drive a browser through Playwright and poll a
    trigger file.  Everything the program does to the outside world is
    either a call to the browser automation capability (which may
    complete or raise), a log line, or a file-system operation.  The
    embedding therefore uses

    - Python [str] values as lists of Unicode code points,
    - a world made of a file store, the pages of the browser context and
      the chronological trace of log lines and browser calls,
    - an environment [env] that decides, from the trace so far, whether
      the next browser call completes or raises, and
    - a small state-and-exception monad with Python's [try]/[except] and
      [try]/[finally]. *)

From Stdlib Require Import ZArith NArith List String Ascii Bool Lia.
From stdpp Require Import base gmap list.
Import ListNotations.

Local Open Scope Z_scope.

(** ** Python values *)

Module Py.

(** A Python [str] is a sequence of code points. *)
Abbreviation char := N.
Abbreviation str := (list N).

(** Literals are written as Rocq strings and read byte by byte. *)
Definition lit (s : string) : str := map N_of_ascii (list_ascii_of_string s).

(** The double quote, for selectors such as [input[type="email"]]. *)
Definition dquote : str := [34%N].

Definition LF : char := 10%N.
Definition CR : char := 13%N.
Definition comma : char := 44%N.

(** [str.isspace] on one code point (CPython's [Py_UNICODE_ISSPACE]). *)
Definition is_space (c : char) : bool :=
  ((9 <=? c) && (c <=? 13))%N || ((28 <=? c) && (c <=? 32))%N
  || (c =? 133)%N || (c =? 160)%N || (c =? 5760)%N
  || ((8192 <=? c) && (c <=? 8202))%N
  || (c =? 8232)%N || (c =? 8233)%N || (c =? 8239)%N
  || (c =? 8287)%N || (c =? 12288)%N.

(** [s.lstrip()], [s.rstrip()] and [s.strip()] without argument. *)
Fixpoint lstrip (s : str) : str :=
  match s with
  | [] => []
  | c :: s' => if is_space c then lstrip s' else s
  end.

Definition rstrip (s : str) : str := rev (lstrip (rev s)).

Definition strip (s : str) : str := rstrip (lstrip s).

(** [s.split(sep)] for a one-character separator: one piece more than
    there are separators, empty pieces kept. *)
Fixpoint split (sep : char) (s : str) : list str :=
  match s with
  | [] => [[]]
  | c :: s' =>
      if (c =? sep)%N then [] :: split sep s'
      else match split sep s' with
           | piece :: pieces => (c :: piece) :: pieces
           | [] => [[c]]
           end
  end.

(** Reading a file opened with [open(path, "r")]: universal newlines,
    so ["\r\n"] and a lone ["\r"] both arrive as ["\n"]. *)
Fixpoint translate_newlines (s : str) : str :=
  match s with
  | [] => []
  | c :: s' =>
      if (c =? CR)%N then
        match s' with
        | c' :: s'' =>
            if (c' =? LF)%N then LF :: translate_newlines s''
            else LF :: translate_newlines s'
        | [] => [LF]
        end
      else c :: translate_newlines s'
  end.

(** [file.readlines()] on text already translated: split after each
    ["\n"], the line ends kept, no empty last line. *)
Fixpoint keepends (s : str) : list str :=
  match s with
  | [] => []
  | c :: s' =>
      if (c =? LF)%N then [c] :: keepends s'
      else match keepends s' with
           | line :: lines => (c :: line) :: lines
           | [] => [[c]]
           end
  end.

Definition read (content : str) : str := translate_newlines content.
Definition readlines (content : str) : list str := keepends (read content).

(** *** Exceptions

    Only the part of the class hierarchy the two modules distinguish:
    [except Exception] catches every class below [Exception], which
    leaves out [KeyboardInterrupt] and asyncio's [CancelledError];
    [except PlaywrightTimeoutError] catches only Playwright's timeout. *)
Inductive exn_class : Type :=
  | PlaywrightTimeoutError
  | PlaywrightError
  | IndexError
  | FileNotFoundError
  | PermissionError
  | TypeError
  | OtherException
  | KeyboardInterrupt
  | CancelledError.

Record exn : Type := Exn { exn_cls : exn_class; exn_msg : str }.

Definition is_Exception (e : exn) : bool :=
  match exn_cls e with
  | KeyboardInterrupt | CancelledError => false
  | _ => true
  end.

Definition is_PlaywrightTimeoutError (e : exn) : bool :=
  match exn_cls e with
  | PlaywrightTimeoutError => true
  | _ => false
  end.

Definition is_KeyboardInterrupt (e : exn) : bool :=
  match exn_cls e with
  | KeyboardInterrupt => true
  | _ => false
  end.

End Py.

(** ** The world and the monad of effects *)

Module Rt.
Import Py.

(** Calls into the browser automation capability.  A page is named by
    its index in [context.pages]. *)
Inductive action : Type :=
  | StartPlaywright
  | LaunchChromium (headless : bool)
  | NewContext (no_viewport : bool)
  | SetDefaultTimeout (ms : Z)
  | NewPage
  | Goto (page : nat) (url : str)
  | Fill (page : nat) (selector value : str)
  | Click (page : nat) (selector : str)
  | WaitForSelector (page : nat) (selector : str) (timeout : option Z)
  | KeyboardType (page : nat) (text : str)
  | KeyboardPress (page : nat) (key : str)
  | ContextClose
  | BrowserClose
  | PlaywrightStop
  | Sleep (seconds : Z).

Inductive outcome : Type :=
  | Done
  | Raised (e : exn).

Inductive event : Type :=
  | EvLog (msg : str)
  | EvCall (a : action) (o : outcome).

(** The environment: what the next call does, given all that happened. *)
Definition Env : Type := list event -> action -> outcome.

(** [fs] maps a path to the text of the regular file there.  It holds
    the files the process can open and read as text, and only those: a
    path at which there is a directory, a file the process may not
    read, or bytes that do not decode, is not in [fs], and the
    development says nothing of a trigger file of that kind.
    [refused] holds the
    paths whose removal the operating system refuses (no write
    permission on the directory, or a sticky directory and a file of
    another owner), each with the text of the [PermissionError] that
    [os.remove] then raises; [pages] is [len(context.pages)]; [trace]
    is chronological. *)
Record World : Type := mkWorld {
  fs : gmap str str;
  refused : gmap str str;
  pages : nat;
  trace : list event
}.

Definition record (ev : event) (w : World) : World :=
  {| fs := fs w; refused := refused w; pages := pages w;
     trace := trace w ++ [ev] |}.

Definition add_page (w : World) : World :=
  {| fs := fs w; refused := refused w; pages := S (pages w);
     trace := trace w |}.

Definition remove_file (path : str) (w : World) : World :=
  {| fs := delete path (fs w); refused := refused w; pages := pages w;
     trace := trace w |}.

Inductive result (A : Type) : Type :=
  | Ok (a : A)
  | Raise (e : exn).
Arguments Ok {A} a.
Arguments Raise {A} e.

Definition M (A : Type) : Type := World -> result A * World.

Definition ret {A} (a : A) : M A := fun w => (Ok a, w).

Definition raise {A} (e : exn) : M A := fun w => (Raise e, w).

Definition bind {A B} (m : M A) (k : A -> M B) : M B :=
  fun w =>
    match m w with
    | (Ok a, w1) => k a w1
    | (Raise e, w1) => (Raise e, w1)
    end.

(** One [except] clause: which exceptions it takes, and its body. *)
Definition clause (A : Type) : Type := (exn -> bool) * (exn -> M A).

Fixpoint dispatch {A} (e : exn) (clauses : list (clause A)) : M A :=
  match clauses with
  | [] => raise e
  | (takes, handler) :: rest =>
      if takes e then handler e else dispatch e rest
  end.

(** [try: body  except ...: ...]: the first clause that matches runs; an
    exception raised by a handler is not offered to the other clauses. *)
Definition try_except {A} (body : M A) (clauses : list (clause A)) : M A :=
  fun w =>
    match body w with
    | (Ok a, w1) => (Ok a, w1)
    | (Raise e, w1) => dispatch e clauses w1
    end.

(** [try: body  finally: final]: [final] runs whatever [body] did; if
    [final] raises, that exception replaces the outcome of [body]. *)
Definition try_finally {A} (body : M A) (final : M unit) : M A :=
  fun w =>
    match body w with
    | (r, w1) =>
        match final w1 with
        | (Ok _, w2) => (r, w2)
        | (Raise e, w2) => (Raise e, w2)
        end
    end.

Definition LOG (msg : str) : M unit := fun w => (Ok tt, record (EvLog msg) w).

(** [lines[i]] *)
Definition getitem (l : list str) (i : nat) : M str :=
  match nth_error l i with
  | Some x => ret x
  | None => raise (Exn IndexError (lit "list index out of range"))
  end.

(** *** The file system *)

(** The [FileNotFoundError] of [open] and [os.remove].  Python prints
    [repr(path)] in its text; for a path of plain printable characters
    without quote or backslash that is the path between single quotes,
    as here.  The text only ever reaches the log. *)
Definition no_such_file (path : str) : exn :=
  Exn FileNotFoundError
      (lit "[Errno 2] No such file or directory: '" ++ path ++ lit "'").

(** [Path.is_file()] *)
Definition is_file (path : str) : M bool :=
  fun w => (Ok (bool_decide (is_Some (fs w !! path))), w).

(** [open(path, "r")], giving the stored text.  As [fs] holds the
    files that can be opened and read as text, the one failure here is
    the file that is not there. *)
Definition open_r (path : str) : M str :=
  fun w =>
    match fs w !! path with
    | Some content => (Ok content, w)
    | None => (Raise (no_such_file path), w)
    end.

(** [os.remove(path)]: a file that is there is removed unless the
    operating system refuses, and then the file stays. *)
Definition os_remove (path : str) : M unit :=
  fun w =>
    match fs w !! path with
    | Some _ =>
        match refused w !! path with
        | Some text => (Raise (Exn PermissionError text), w)
        | None => (Ok tt, remove_file path w)
        end
    | None => (Raise (no_such_file path), w)
    end.

Section Calls.
Variable env : Env.

(** Issue a call: the environment answers, the trace keeps both. *)
Definition call (a : action) : M unit :=
  fun w =>
    let o := env (trace w) a in
    (match o with Done => Ok tt | Raised e => Raise e end,
     record (EvCall a o) w).

(** [context.new_page()] gives the page appended to [context.pages]. *)
Definition new_page : M nat :=
  fun w =>
    match call NewPage w with
    | (Ok _, w1) => (Ok (pages w), add_page w1)
    | (Raise e, w1) => (Raise e, w1)
    end.

(** [context.pages[0]] *)
Definition pages_0 : M nat :=
  fun w =>
    match pages w with
    | O => (Raise (Exn IndexError (lit "list index out of range")), w)
    | S _ => (Ok O, w)
    end.

End Calls.

Declare Scope py_scope.
Delimit Scope py_scope with py.
Bind Scope py_scope with M.
Notation "x <- c ;; k" := (bind c (fun x => k))
  (at level 100, c at next level, right associativity) : py_scope.
Notation "c ;; k" := (bind c (fun _ => k))
  (at level 100, right associativity) : py_scope.

End Rt.

(** ** outlook_authentication.py *)

Module Auth.
Import Py Rt.
Local Open Scope py_scope.

Record OutlookConfig : Type := mkOutlookConfig {
  email : str;
  password : str;
  username : str;
  outlook_url : str
}.

Definition default_outlook_url : str := lit "https://outlook.office.com".

(** The names of the required fields that a call left out. *)
Definition missing_fields (email password username : option str) : list str :=
  (match email with Some _ => [] | None => [lit "email"] end)
  ++ (match password with Some _ => [] | None => [lit "password"] end)
  ++ (match username with Some _ => [] | None => [lit "username"] end).

Definition quoted (s : str) : str := lit "'" ++ s ++ lit "'".

Definition missing_message (names : list str) : str :=
  match names with
  | [a] =>
      lit "OutlookConfig.__init__() missing 1 required positional argument: "
      ++ quoted a
  | [a; b] =>
      lit "OutlookConfig.__init__() missing 2 required positional arguments: "
      ++ quoted a ++ lit " and " ++ quoted b
  | _ =>
      lit "OutlookConfig.__init__() missing 3 required positional arguments: "
      ++ lit "'email', 'password', and 'username'"
  end.

(** The [__init__] that [@dataclass] generates, called with keyword
    arguments; [None] stands for an argument the call does not pass.
    [email], [password] and [username] have no default. *)
Definition OutlookConfig_init
    (email password username outlook_url : option str) : M OutlookConfig :=
  match email, password, username with
  | Some e, Some p, Some u =>
      ret {| email := e; password := p; username := u;
             outlook_url := default default_outlook_url outlook_url |}
  | _, _, _ =>
      raise (Exn TypeError
                 (missing_message (missing_fields email password username)))
  end.

(** Handles of the three session resources. *)
Inductive Playwright : Type := the_playwright.
Inductive Browser : Type := the_browser.
Inductive BrowserContext : Type := the_context.

Definition sel_email : str := lit "input[type=" ++ dquote ++ lit "email" ++ dquote ++ lit "]".
Definition sel_submit : str := lit "input[type=" ++ dquote ++ lit "submit" ++ dquote ++ lit "]".
Definition sel_password : str := lit "input[type=" ++ dquote ++ lit "password" ++ dquote ++ lit "]".
Definition sel_stay_signed_in : str := lit "#idSIButton9".
Definition sel_new_mail : str := lit "[aria-label=" ++ dquote ++ lit "New mail" ++ dquote ++ lit "]".

(** Python's truth value of an [Optional] handle. *)
Definition truthy {A} (o : option A) : bool :=
  match o with Some _ => true | None => false end.

Section WithEnv.
Variable env : Env.

Definition setup_browser
  : M (option Playwright * option Browser * option BrowserContext) :=
  try_except
    (call env StartPlaywright ;;
     let playwright := Some the_playwright in
     call env (LaunchChromium false) ;;
     let browser := Some the_browser in
     call env (NewContext true) ;;
     let context := Some the_context in
     (match context with
      | Some _ =>
          call env (SetDefaultTimeout 2147483647) ;;
          LOG (lit "Browser context created with extended timeout.")
      | None => LOG (lit "Failed to create browser context.")
      end) ;;
     ret (playwright, browser, context))
    [(is_Exception,
      fun e =>
        LOG (lit "Error setting up browser: " ++ exn_msg e) ;;
        ret (None, None, None))].

Definition authenticate_outlook (context : BrowserContext)
    (config : OutlookConfig) : M bool :=
  try_except
    (page <- new_page env ;;
     LOG (lit "Navigating to " ++ outlook_url config) ;;
     call env (Goto page (outlook_url config)) ;;
     LOG (lit "Filling email") ;;
     call env (Fill page sel_email (email config)) ;;
     call env (Click page sel_submit) ;;
     (match username config with
      | _ :: _ =>
          LOG (lit "Internal authentication -- please handle the authentication manually")
      | [] =>
          LOG (lit "Using external authentication flow") ;;
          LOG (lit "Waiting for password input") ;;
          call env (WaitForSelector page sel_password (Some 60000)) ;;
          call env (Fill page sel_password (password config)) ;;
          call env (Click page sel_submit) ;;
          LOG (lit "Checking for 'Stay signed in?' prompt") ;;
          try_except
            (call env (WaitForSelector page sel_stay_signed_in (Some 60000)) ;;
             call env (Click page sel_stay_signed_in) ;;
             LOG (lit "Clicked 'Stay signed in'"))
            [(is_PlaywrightTimeoutError,
              fun _ => LOG (lit "No 'Stay signed in?' prompt detected. Continuing..."))]
      end) ;;
     LOG (lit "Waiting for the final page to load") ;;
     call env (WaitForSelector page sel_new_mail (Some 60000)) ;;
     LOG (lit "Authenticated successfully.") ;;
     ret true)
    [(is_Exception,
      fun e =>
        LOG (lit "Error during authentication: " ++ exn_msg e) ;;
        ret false)].

(** What [auth_argparse] returns. *)
Record AuthOptions : Type := mkAuthOptions {
  opt_email : str;
  opt_password : str;
  opt_username : str
}.

Definition authenticate (options : AuthOptions) : M unit :=
  config <- OutlookConfig_init (Some (opt_email options))
              (Some (opt_password options)) (Some (opt_username options)) None ;;
  t <- setup_browser ;;
  let '(playwright, browser, context) := t in
  try_finally
    (match context with
     | None => LOG (lit "Browser context was not defined. Critical error")
     | Some ctx =>
         authenticated <- authenticate_outlook ctx config ;;
         if authenticated
         then LOG (lit "Authentication was successful. You can proceed with sending emails.")
         else LOG (lit "Authentication failed. Please check your credentials and try again.")
     end)
    (if truthy context && truthy browser && truthy playwright then
       call env ContextClose ;;
       call env BrowserClose ;;
       call env PlaywrightStop
     else ret tt).

End WithEnv.

End Auth.

(** ** outlook_email_sender.py *)

Module Sender.
Import Py Rt Auth.
Local Open Scope py_scope.

Record EmailDetails : Type := mkEmailDetails {
  recipient : str;
  subject : str;
  body_file : str
}.

(** What [send_argparse] returns. *)
Record SendOptions : Type := mkSendOptions {
  opt_email : str;
  opt_password : str;
  opt_notification : str
}.

Definition sel_to : str := lit "[aria-label=" ++ dquote ++ lit "To" ++ dquote ++ lit "]".
Definition sel_subject : str := lit "[placeholder=" ++ dquote ++ lit "Add a subject" ++ dquote ++ lit "]".
Definition sel_sent : str := lit "#EmptyState_MainMessage".

Section WithEnv.
Variable env : Env.

(** [for i, recipient in enumerate(recipients): ...] of [send_email],
    from index [i] on; [n] is [len(recipients)]. *)
Fixpoint for_recipients (page : nat) (n i : Z) (rest : list str) : M unit :=
  match rest with
  | [] => ret tt
  | recipient :: rest' =>
      call env (Fill page sel_to (strip recipient)) ;;
      (if i <? n - 1 then
         call env (KeyboardType page (lit ",")) ;;
         call env (KeyboardPress page (lit "Space"))
       else ret tt) ;;
      for_recipients page n (i + 1) rest'
  end.

Definition send_email (context : BrowserContext)
    (email_details : EmailDetails) : M bool :=
  try_except
    (page <- pages_0 ;;
     LOG (lit "Clicking 'New mail'") ;;
     call env (Click page sel_new_mail) ;;
     call env (WaitForSelector page sel_to None) ;;
     LOG (lit "Filling email details") ;;
     let recipients := split comma (recipient email_details) in
     for_recipients page (Z.of_nat (length recipients)) 0 recipients ;;
     call env (Fill page sel_subject (strip (subject email_details))) ;;
     call env (KeyboardPress page (lit "Tab")) ;;
     LOG (lit "Adding email body") ;;
     content <- open_r (body_file email_details) ;;
     let body := strip (read content) in
     call env (KeyboardType page body) ;;
     LOG (lit "Sending email") ;;
     call env (KeyboardPress page (lit "Control+Enter")) ;;
     LOG (lit "Waiting for email sent confirmation") ;;
     call env (WaitForSelector page sel_sent (Some 30000)) ;;
     LOG (lit "Email sent to " ++ recipient email_details ++ lit ".") ;;
     ret true)
    [(is_Exception,
      fun e =>
        LOG (lit "Error sending email: " ++ exn_msg e) ;;
        ret false)].

(** The [try] statement that is the body of the [while True] loop of
    [listen_for_email_requests]: one look at the trigger file. *)
Definition poll_once (context : BrowserContext) (triggerFile : str) : M unit :=
  try_except
    (found <- is_file triggerFile ;;
     if found : bool then
       LOG (lit "Notification file found: " ++ triggerFile) ;;
       content <- open_r triggerFile ;;
       let lines := readlines content in
       line0 <- getitem lines 0 ;;
       let recipient := strip line0 in
       line1 <- getitem lines 1 ;;
       let subject := strip line1 in
       line2 <- getitem lines 2 ;;
       let body_file := strip line2 in
       let email_details :=
         {| recipient := recipient; subject := subject; body_file := body_file |} in
       email_sent <- send_email context email_details ;;
       if email_sent : bool then
         os_remove triggerFile ;;
         LOG (lit "Notification file processed and removed: " ++ triggerFile)
       else
         LOG (lit "Failed to send email. Notification file not removed: " ++ triggerFile)
     else ret tt)
    [(is_Exception,
      fun e => LOG (lit "Error in listen_for_email_requests: " ++ exn_msg e))].

(** The first [cycles] rounds of the [while True] loop.  The Python loop
    has no exit of its own: it only ends when an exception leaves it. *)
Fixpoint listen_loop (cycles : nat) (context : BrowserContext)
    (triggerFile : str) : M unit :=
  match cycles with
  | O => ret tt
  | S cycles' =>
      poll_once context triggerFile ;;
      call env (Sleep 5) ;;
      listen_loop cycles' context triggerFile
  end.

Definition listen_for_email_requests (cycles : nat)
    (context : BrowserContext) (triggerFile : str) : M unit :=
  LOG (lit "Waiting for email notifications...") ;;
  listen_loop cycles context triggerFile.

Definition async_main (cycles : nat) (options : SendOptions) : M unit :=
  config <- OutlookConfig_init (Some (opt_email options))
              (Some (opt_password options)) None None ;;
  t <- setup_browser env ;;
  let '(playwright, browser, context) := t in
  (* [if playwright is None or browser is None or context is None: return] *)
  match playwright, browser, context with
  | Some _, Some _, Some ctx =>
      try_finally
        (try_except
           (LOG (lit "Starting authentication process...") ;;
            authenticated <- authenticate_outlook env ctx config ;;
            if authenticated : bool then
              LOG (lit "Authentication successful. The script will now run indefinitely.") ;;
              LOG (lit "Press Ctrl+C to stop the script at any time.") ;;
              listen_for_email_requests cycles ctx (opt_notification options)
            else LOG (lit "Failed to authenticate. Exiting."))
           [(is_KeyboardInterrupt,
             fun _ => LOG ([LF] ++ lit "Script terminated by user."));
            (is_Exception,
             fun e => LOG (lit "An error occurred in async_main: " ++ exn_msg e))])
        (LOG (lit "Cleaning up resources...") ;;
         (if truthy context then call env ContextClose else ret tt) ;;
         (if truthy browser then call env BrowserClose else ret tt) ;;
         (if truthy playwright then call env PlaywrightStop else ret tt))
  | _, _, _ => LOG (lit "Failed to set up browser. Exiting.")
  end.

End WithEnv.

End Sender.

(** ** What a run shows: calls, scripts and scenarios *)

Module Obs.
Import Py Rt Auth Sender.

Fixpoint str_eqb (s t : str) : bool :=
  match s, t with
  | [], [] => true
  | c :: s', d :: t' => (c =? d)%N && str_eqb s' t'
  | _, _ => false
  end.

(** The browser calls among some events, in order. *)
Fixpoint calls (evs : list event) : list action :=
  match evs with
  | [] => []
  | EvLog _ :: evs' => calls evs'
  | EvCall a _ :: evs' => a :: calls evs'
  end.

(** The calls that raised, each with its exception. *)
Fixpoint raised (evs : list event) : list (action * exn) :=
  match evs with
  | [] => []
  | EvCall a (Raised e) :: evs' => (a, e) :: raised evs'
  | _ :: evs' => raised evs'
  end.

(** The three resources of a browser session. *)
Inductive resource : Type :=
  | Driver
  | BrowserProcess
  | BrowsingContext.

(** The resource a completed call brings into being. *)
Definition acquired (a : action) : option resource :=
  match a with
  | StartPlaywright => Some Driver
  | LaunchChromium _ => Some BrowserProcess
  | NewContext _ => Some BrowsingContext
  | _ => None
  end.

(** The resource a call releases. *)
Definition released (a : action) : option resource :=
  match a with
  | PlaywrightStop => Some Driver
  | BrowserClose => Some BrowserProcess
  | ContextClose => Some BrowsingContext
  | _ => None
  end.

Definition resource_eqb (r s : resource) : bool :=
  match r, s with
  | Driver, Driver
  | BrowserProcess, BrowserProcess
  | BrowsingContext, BrowsingContext => true
  | _, _ => false
  end.

Definition is_resource (r : resource) (o : option resource) : bool :=
  match o with
  | Some s => resource_eqb r s
  | None => false
  end.

(** How often [r] was acquired, and how often a release of [r] was
    called, in some events. *)
Fixpoint acquisitions (r : resource) (evs : list event) : nat :=
  match evs with
  | [] => O
  | EvCall a Done :: evs' =>
      if is_resource r (acquired a) then S (acquisitions r evs')
      else acquisitions r evs'
  | _ :: evs' => acquisitions r evs'
  end.

Fixpoint releases (r : resource) (evs : list event) : nat :=
  match evs with
  | [] => O
  | EvCall a _ :: evs' =>
      if is_resource r (released a) then S (releases r evs')
      else releases r evs'
  | _ :: evs' => releases r evs'
  end.

(** The recipient part of composing, in the words of the description:
    one fill of the To field per address, trimmed, and a comma and a
    space typed after every fill but the last. *)
Fixpoint recipients_script (page : nat) (recipients : list str) : list action :=
  match recipients with
  | [] => []
  | r :: rest =>
      match rest with
      | [] => [Fill page sel_to (strip r)]
      | _ :: _ =>
          Fill page sel_to (strip r)
          :: KeyboardType page (lit ",")
          :: KeyboardPress page (lit "Space")
          :: recipients_script page rest
      end
  end.

(** The values filled into the To field by a list of calls. *)
Fixpoint to_fills (script : list action) : list str :=
  match script with
  | [] => []
  | Fill _ selector value :: script' =>
      if str_eqb selector sel_to then value :: to_fills script'
      else to_fills script'
  | _ :: script' => to_fills script'
  end.

(** How often [c] occurs in [s]. *)
Fixpoint occurrences (c : char) (s : str) : nat :=
  match s with
  | [] => O
  | c' :: s' => if (c' =? c)%N then S (occurrences c s') else occurrences c s'
  end.

(** What follows each fill of a field: the calls up to the next fill. *)
Fixpoint after_fills (script : list action) : list (list action) :=
  match script with
  | [] => []
  | Fill _ _ _ :: script' =>
      (fix upto (l : list action) : list action :=
         match l with
         | [] => []
         | Fill _ _ _ :: _ => []
         | a :: l' => a :: upto l'
         end) script' :: after_fills script'
  | _ :: script' => after_fills script'
  end.

(** The text typed right after the Tab that moves to the body field. *)
Fixpoint body_typed (script : list action) : option str :=
  match script with
  | [] => None
  | KeyboardPress _ key :: rest =>
      if str_eqb key (lit "Tab") then
        match rest with
        | KeyboardType _ text :: _ => Some text
        | _ => None
        end
      else body_typed rest
  | _ :: rest => body_typed rest
  end.

(** The calls of a whole send that types [body]. *)
Definition send_script (page : nat) (d : EmailDetails) (body : str) : list action :=
  Click page sel_new_mail
  :: WaitForSelector page sel_to None
  :: recipients_script page (split comma (recipient d))
  ++ [Fill page sel_subject (strip (subject d));
      KeyboardPress page (lit "Tab");
      KeyboardType page body;
      KeyboardPress page (lit "Control+Enter");
      WaitForSelector page sel_sent (Some 30000)].

(** The calls of a send that stops at a body file it cannot open. *)
Definition compose_script (page : nat) (d : EmailDetails) : list action :=
  Click page sel_new_mail
  :: WaitForSelector page sel_to None
  :: recipients_script page (split comma (recipient d))
  ++ [Fill page sel_subject (strip (subject d));
      KeyboardPress page (lit "Tab")].

(** [finishes F n script post m]: started on the file store [F] with
    [n] pages open, [m] keeps both and only adds to the trace; when none
    of its calls raised, it has issued exactly the calls of [script] and
    its outcome satisfies [post]. *)
Definition finishes {A : Type} (F : gmap str str) (n : nat)
    (script : list action) (post : result A -> Prop) (m : M A) : Prop :=
  forall w, fs w = F -> pages w = n ->
    exists evs,
      trace (m w).2 = trace w ++ evs
      /\ fs (m w).2 = F
      /\ pages (m w).2 = n
      /\ (raised evs = [] -> calls evs = script /\ post (m w).1).

(** The outcome is a value, not an exception. *)
Definition returns {A : Type} (r : result A) : Prop := exists a, r = Ok a.

(** A press of the Tab key. *)
Definition is_tab (a : action) : bool :=
  match a with
  | KeyboardPress _ key => str_eqb key (lit "Tab")
  | _ => false
  end.

(** The calls that follow the first press of Tab. *)
Fixpoint after_tab (script : list action) : list action :=
  match script with
  | [] => []
  | a :: rest => if is_tab a then rest else after_tab rest
  end.

(** The texts typed by some calls, in order. *)
Fixpoint typed (script : list action) : list str :=
  match script with
  | [] => []
  | KeyboardType _ text :: rest => text :: typed rest
  | _ :: rest => typed rest
  end.

(** Everything typed after the Tab that moves to the body field. *)
Definition typed_in_body (script : list action) : list str :=
  typed (after_tab script).

(** The calls of a send as the files have it: the whole send when the
    body file can be read, the compose steps up to the Tab otherwise. *)
Definition script_of (F : gmap str str) (page : nat) (d : EmailDetails)
  : list action :=
  match F !! body_file d with
  | Some content => send_script page d (strip (read content))
  | None => compose_script page d
  end.

(** [keeps_refused m]: [m] has no say in what the operating system
    refuses. *)
Definition keeps_refused {A : Type} (m : M A) : Prop :=
  forall w, refused (m w).2 = refused w.

(** [plays F script good m]: started on the file store [F], [m] leaves
    the files and the pages alone, only adds to the trace, issues the
    calls of [script] in order as far as it gets, and has issued all of
    them when it returns a value that is [good]. *)
Definition plays {A : Type} (F : gmap str str) (script : list action)
    (good : A -> Prop) (m : M A) : Prop :=
  forall w, fs w = F ->
    exists evs,
      trace (m w).2 = trace w ++ evs
      /\ fs (m w).2 = F
      /\ pages (m w).2 = pages w
      /\ calls evs `prefix_of` script
      /\ (forall a, (m w).1 = Ok a -> good a -> calls evs = script).

(** The calls of signing in with a username set on page [page]. *)
Definition handoff_script (page : nat) (config : OutlookConfig) : list action :=
  [NewPage;
   Goto page (outlook_url config);
   Fill page sel_email (email config);
   Click page sel_submit;
   WaitForSelector page sel_new_mail (Some 60000)].

(** A call that addresses the password field. *)
Definition on_password_field (a : action) : bool :=
  match a with
  | Fill _ selector _ => str_eqb selector sel_password
  | Click _ selector => str_eqb selector sel_password
  | WaitForSelector _ selector _ => str_eqb selector sel_password
  | _ => false
  end.

(** A call of the optional "stay signed in" step. *)
Definition on_stay_signed_in (a : action) : bool :=
  match a with
  | Click _ selector => str_eqb selector sel_stay_signed_in
  | WaitForSelector _ selector _ => str_eqb selector sel_stay_signed_in
  | _ => false
  end.

(** The exceptions of a run that the inner [try] of
    [authenticate_outlook] takes: a Playwright timeout of that step. *)
Definition swallowed (a : action) (e : exn) : bool :=
  on_stay_signed_in a && is_PlaywrightTimeoutError e.

(** The events of a session set up without a hitch. *)
Definition setup_events : list event :=
  [EvCall StartPlaywright Done;
   EvCall (LaunchChromium false) Done;
   EvCall (NewContext true) Done;
   EvCall (SetDefaultTimeout 2147483647) Done;
   EvLog (lit "Browser context created with extended timeout.")].

(** The events up to and including the password submit, all calls
    completing, on page [page]. *)
Definition password_events (page : nat) (config : OutlookConfig) : list event :=
  [EvCall NewPage Done;
   EvLog (lit "Navigating to " ++ outlook_url config);
   EvCall (Goto page (outlook_url config)) Done;
   EvLog (lit "Filling email");
   EvCall (Fill page sel_email (email config)) Done;
   EvCall (Click page sel_submit) Done;
   EvLog (lit "Using external authentication flow");
   EvLog (lit "Waiting for password input");
   EvCall (WaitForSelector page sel_password (Some 60000)) Done;
   EvCall (Fill page sel_password (password config)) Done;
   EvCall (Click page sel_submit) Done;
   EvLog (lit "Checking for 'Stay signed in?' prompt")].

(** [answers env h evs]: after the history [h], the environment answers
    the calls of [evs] the way [evs] records them. *)
Fixpoint answers (env : Env) (h : list event) (evs : list event) : Prop :=
  match evs with
  | [] => True
  | EvLog msg :: evs' => answers env (h ++ [EvLog msg]) evs'
  | EvCall a o :: evs' => env h a = o /\ answers env (h ++ [EvCall a o]) evs'
  end.

(** *** Scenarios *)

(** Every call completes. *)
Definition env_ok : Env := fun _ _ => Done.

Definition timeout_60s : exn :=
  Exn PlaywrightTimeoutError (lit "Timeout 60000ms exceeded.").

(** The "stay signed in" prompt never shows. *)
Definition env_no_prompt : Env :=
  fun _ a =>
    match a with
    | WaitForSelector _ selector _ =>
        if str_eqb selector sel_stay_signed_in then Raised timeout_60s else Done
    | _ => Done
    end.

(** The task is cancelled while the page loads. *)
Definition env_cancelled : Env :=
  fun _ a =>
    match a with
    | Goto _ _ => Raised (Exn CancelledError [])
    | _ => Done
    end.

(** The driver starts, the browser does not. *)
Definition env_no_browser : Env :=
  fun _ a =>
    match a with
    | LaunchChromium _ =>
        Raised (Exn PlaywrightError (lit "Executable doesn't exist"))
    | _ => Done
    end.

(** The message is never confirmed as sent. *)
Definition env_not_sent : Env :=
  fun _ a =>
    match a with
    | WaitForSelector _ selector (Some 30000) =>
        Raised (Exn PlaywrightTimeoutError (lit "Timeout 30000ms exceeded."))
    | _ => Done
    end.

Definition trigger_path : str := lit "/tmp/notification.txt".
Definition body_path : str := lit "/tmp/body.txt".

Definition trigger_text : str :=
  lit "alice@example.com,bob@example.com" ++ [LF]
  ++ lit "Project update" ++ [LF]
  ++ lit "/tmp/body.txt".

(** A signed-in session with a request waiting. *)
Definition world_request : World :=
  {| fs := <[trigger_path := trigger_text]>
             (<[body_path := lit "Hello team"]> ∅);
     refused := ∅;
     pages := 1;
     trace := [] |}.

(** The same with a body file that starts with a blank and has
    Windows line ends. *)
Definition world_padded_body : World :=
  {| fs := <[trigger_path := trigger_text]>
             (<[body_path := lit " Hello" ++ [CR; LF] ++ lit "team" ++ [CR; LF]]> ∅);
     refused := ∅;
     pages := 1;
     trace := [] |}.

(** The same request in a directory where the process may not remove
    the trigger file. *)
Definition world_protected : World :=
  {| fs := <[trigger_path := trigger_text]>
             (<[body_path := lit "Hello team"]> ∅);
     refused := {[ trigger_path :=
                   lit "[Errno 1] Operation not permitted: '/tmp/notification.txt'" ]};
     pages := 1;
     trace := [] |}.

(** A trigger file that ends after the subject. *)
Definition world_short_request : World :=
  {| fs := <[trigger_path := lit "alice@example.com" ++ [LF] ++ lit "Project update"]> ∅;
     refused := ∅;
     pages := 1;
     trace := [] |}.

(** Nothing to do yet: no browser, no files. *)
Definition world_start : World :=
  {| fs := ∅; refused := ∅; pages := 0; trace := [] |}.

Definition details_request : EmailDetails :=
  {| recipient := lit "alice@example.com,bob@example.com";
     subject := lit "Project update";
     body_file := body_path |}.

Definition options_password : AuthOptions :=
  {| Auth.opt_email := lit "name@example.com";
     Auth.opt_password := lit "password";
     Auth.opt_username := [] |}.

Definition config_password : OutlookConfig :=
  {| email := lit "name@example.com"; password := lit "password";
     username := []; outlook_url := default_outlook_url |}.

Definition config_internal : OutlookConfig :=
  {| email := lit "name@example.com"; password := lit "password";
     username := lit "jdoe"; outlook_url := default_outlook_url |}.

(** Whether a text starts, or ends, with white space. *)
Definition starts_with_space (s : str) : bool :=
  match s with
  | [] => false
  | c :: _ => is_space c
  end.
Definition ends_with_space (s : str) : bool := starts_with_space (rev s).

(** [sep.join(pieces)] for a one-character separator. *)
Fixpoint join (sep : char) (pieces : list str) : str :=
  match pieces with
  | [] => []
  | piece :: rest =>
      match rest with
      | [] => piece
      | _ :: _ => piece ++ sep :: join sep rest
      end
  end.

(** [vouches F n need good m]: started on the file store [F] with [n]
    pages open, [m] keeps both, and when it returns a [good] value then
    [need] holds and none of its calls raised. *)
Definition vouches {A : Type} (F : gmap str str) (n : nat) (need : Prop)
    (good : A -> Prop) (m : M A) : Prop :=
  forall w, fs w = F -> pages w = n ->
    exists evs,
      trace (m w).2 = trace w ++ evs
      /\ fs (m w).2 = F
      /\ pages (m w).2 = n
      /\ (forall a, (m w).1 = Ok a -> good a -> need /\ raised evs = []).

(** A press of the key chord that sends the message. *)
Definition is_submit (a : action) : bool :=
  match a with
  | KeyboardPress _ key => str_eqb key (lit "Control+Enter")
  | _ => false
  end.

(** The calls of signing in with a password on page [page]; [clicked]
    tells whether the "stay signed in" element showed and was clicked. *)
Definition password_script (page : nat) (config : OutlookConfig)
    (clicked : bool) : list action :=
  [NewPage;
   Goto page (outlook_url config);
   Fill page sel_email (email config);
   Click page sel_submit;
   WaitForSelector page sel_password (Some 60000);
   Fill page sel_password (password config);
   Click page sel_submit;
   WaitForSelector page sel_stay_signed_in (Some 60000)]
  ++ (if clicked then [Click page sel_stay_signed_in] else [])
  ++ [WaitForSelector page sel_new_mail (Some 60000)].

(** Closing the context fails. *)
Definition env_context_stuck : Env :=
  fun _ a =>
    match a with
    | ContextClose => Raised (Exn PlaywrightError (lit "Target closed"))
    | _ => Done
    end.

End Obs.

Import Py Rt Auth Sender Obs.
Local Open Scope py_scope.

(** ** Laws of the monad *)

Section Laws.
Context {A : Type}.

(** A single [except Exception] clause whose handler cannot raise lets
    only what is not an [Exception] through. *)
Lemma try_except_Exception_inv (body : M A) (handler : exn -> M A) w e w1 :
  (forall e' w', exists a w'', handler e' w' = (Ok a, w'')) ->
  try_except body [(is_Exception, handler)] w = (Raise e, w1) ->
  is_Exception e = false /\ body w = (Raise e, w1).
Proof.
  intros Hh. unfold try_except.
  destruct (body w) as [[a|e0] w0]; [discriminate|].
  simpl. destruct (is_Exception e0) eqn:He0.
  - destruct (Hh e0 w0) as (a & w'' & ->). discriminate.
  - unfold raise. intros [= <- <-]. auto.
Qed.

End Laws.

(** ** Rules for [plays] *)

Section Plays.
Variable env : Env.
Variable F : gmap str str.

Lemma calls_app evs1 evs2 : calls (evs1 ++ evs2) = calls evs1 ++ calls evs2.
Proof.
  induction evs1 as [|[msg|a o] evs1 IH]; simpl; [reflexivity|assumption|].
  now rewrite IH.
Qed.

Lemma plays_ret {A} (good : A -> Prop) (a : A) : plays F [] good (ret a).
Proof.
  intros w Hw. exists []. simpl. rewrite app_nil_r.
  repeat split; auto using prefix_nil.
Qed.

Lemma plays_raise {A} (good : A -> Prop) (e : exn) script :
  plays F script good (raise e).
Proof.
  intros w Hw. exists []. simpl. rewrite app_nil_r.
  repeat split; auto using prefix_nil. intros a [=].
Qed.

Lemma plays_bind {A B} (good : B -> Prop) s1 s2 (m : M A) (k : A -> M B) :
  plays F s1 (fun _ => True) m ->
  (forall a, plays F s2 good (k a)) ->
  plays F (s1 ++ s2) good (bind m k).
Proof.
  intros Hm Hk w Hw. destruct (Hm w Hw) as (evs1 & Ht1 & Hf1 & Hp1 & Hpre1 & Hall1).
  unfold bind. destruct (m w) as [[a|e] w1] eqn:Hmw; simpl in *.
  - destruct (Hk a w1 Hf1) as (evs2 & Ht2 & Hf2 & Hp2 & Hpre2 & Hall2).
    exists (evs1 ++ evs2). rewrite Ht2, Ht1, app_assoc, calls_app.
    rewrite (Hall1 a eq_refl I).
    repeat split; auto; [congruence|now apply prefix_app|].
    intros b Hb Hg. now rewrite (Hall2 b Hb Hg).
  - exists evs1. repeat split; auto; [now apply prefix_app_r|]. intros b [=].
Qed.

Lemma plays_call (a : action) : plays F [a] (fun _ => True) (call env a).
Proof.
  intros w Hw. exists [EvCall a (env (trace w) a)]. unfold call. simpl.
  repeat split; auto.
Qed.

Lemma plays_LOG (msg : str) : plays F [] (fun _ => True) (LOG msg).
Proof.
  intros w Hw. exists [EvLog msg]. unfold LOG. simpl. repeat split; auto.
Qed.

Lemma plays_then_call {B} (good : B -> Prop) a script (k : unit -> M B) :
  plays F script good (k tt) ->
  plays F (a :: script) good (bind (call env a) k).
Proof.
  intros Hk. apply (plays_bind good [a] script); [apply plays_call|].
  now intros [].
Qed.

Lemma plays_then_LOG {B} (good : B -> Prop) msg script (k : unit -> M B) :
  plays F script good (k tt) ->
  plays F script good (bind (LOG msg) k).
Proof.
  intros Hk. apply (plays_bind good [] script); [apply plays_LOG|].
  now intros [].
Qed.

Lemma plays_then_pages_0 {B} (good : B -> Prop) script (k : nat -> M B) :
  plays F script good (k O) ->
  plays F script good (bind pages_0 k).
Proof.
  intros Hk w Hw. unfold bind, pages_0. destruct (pages w) eqn:Hp.
  - exists []. simpl. rewrite app_nil_r.
    repeat split; auto using prefix_nil. intros b [=].
  - rewrite <- Hp. apply (Hk w Hw).
Qed.

Lemma plays_then_open_r {B} (good : B -> Prop) path script (k : str -> M B) :
  (forall content, F !! path = Some content -> plays F script good (k content)) ->
  plays F script good (bind (open_r path) k).
Proof.
  intros Hk w Hw. unfold bind, open_r. destruct (fs w !! path) as [c|] eqn:Hl.
  - rewrite Hw in Hl. apply (Hk c Hl w Hw).
  - exists []. simpl. rewrite app_nil_r.
    repeat split; auto using prefix_nil. intros b [=].
Qed.

(** [try: body  except Exception as e: LOG(...); return False] *)
Lemma plays_try_false script (body : M bool) (msg : exn -> str) :
  plays F script (fun _ => True) body ->
  plays F script (fun b => b = true)
    (try_except body [(is_Exception, fun e => LOG (msg e) ;; ret false)]).
Proof.
  intros Hb w Hw. destruct (Hb w Hw) as (evs & Ht & Hf & Hp & Hpre & Hall).
  unfold try_except. destruct (body w) as [[b|e] w1] eqn:Hbw; simpl in *.
  - exists evs. repeat split; auto. intros b' [= <-] _. now apply (Hall b).
  - destruct (is_Exception e).
    + exists (evs ++ [EvLog (msg e)]). unfold bind, LOG, ret. simpl.
      rewrite Ht, app_assoc, calls_app. simpl. rewrite app_nil_r.
      repeat split; auto. intros b [= <-] [=].
    + exists evs. unfold raise. simpl. repeat split; auto. intros b [=].
Qed.

End Plays.

(** ** The sender *)

Section SenderFacts.
Variable env : Env.

Lemma plays_for_recipients F page rest :
  forall n i, n = i + Z.of_nat (length rest) ->
    plays F (recipients_script page rest) (fun _ => True)
      (for_recipients env page n i rest).
Proof.
  induction rest as [|r rest IH]; intros n i Hn.
  - apply plays_ret.
  - cbn [for_recipients recipients_script].
    destruct rest as [|r' rest'].
    + replace (i <? n - 1) with false
        by (symmetry; apply Z.ltb_ge; simpl in Hn; lia).
      apply plays_then_call.
      apply (plays_bind F (fun _ => True) [] []); [apply plays_ret|].
      intros _. apply plays_ret.
    + replace (i <? n - 1) with true
        by (symmetry; apply Z.ltb_lt; cbn [length] in Hn; lia).
      apply plays_then_call.
      apply (plays_bind F (fun _ => True)
               [KeyboardType page (lit ","); KeyboardPress page (lit "Space")]).
      * apply plays_then_call, plays_call.
      * intros _. apply IH. cbn [length] in *. lia.
Qed.

Lemma send_email_plays F context d :
  plays F
    (match F !! body_file d with
     | Some content => send_script O d (strip (read content))
     | None => compose_script O d
     end)
    (fun sent => sent = true)
    (send_email env context d).
Proof.
  unfold send_email. apply plays_try_false.
  apply plays_then_pages_0, plays_then_LOG.
  destruct (F !! body_file d) as [content|] eqn:Hbody;
    unfold send_script, compose_script;
    apply plays_then_call, plays_then_call, plays_then_LOG;
    (apply plays_bind; [apply plays_for_recipients; lia|]); intros _;
    apply plays_then_call, plays_then_call, plays_then_LOG;
    apply plays_then_open_r; intros c Hc; rewrite Hbody in Hc; [|discriminate].
  injection Hc as <-.
  apply plays_then_call, plays_then_LOG, plays_then_call, plays_then_LOG.
  apply plays_then_call, plays_then_LOG, plays_ret.
Qed.

(** [send_email] only reads the file store. *)
Lemma send_email_fs context d w :
  fs (send_email env context d w).2 = fs w.
Proof.
  destruct (send_email_plays (fs w) context d w eq_refl) as (_ & _ & H & _).
  exact H.
Qed.

Lemma send_email_raise context d w e w1 :
  send_email env context d w = (Raise e, w1) -> is_Exception e = false.
Proof.
  intros H. apply try_except_Exception_inv in H; [tauto|].
  intros e' w'. now eexists _, _.
Qed.

Lemma keeps_ret {A} (a : A) : keeps_refused (ret a).
Proof. now intros w. Qed.

Lemma keeps_LOG msg : keeps_refused (LOG msg).
Proof. now intros w. Qed.

Lemma keeps_call a : keeps_refused (call env a).
Proof. now intros w. Qed.

Lemma keeps_bind {A B} (m : M A) (k : A -> M B) :
  keeps_refused m -> (forall a, keeps_refused (k a)) -> keeps_refused (bind m k).
Proof.
  intros Hm Hk w. unfold bind. specialize (Hm w).
  destruct (m w) as [[a|e] w1]; cbn [snd] in *; [|exact Hm].
  now rewrite (Hk a w1).
Qed.

Lemma keeps_pages_0 : keeps_refused pages_0.
Proof. intros w. unfold pages_0. now destruct (pages w). Qed.

Lemma keeps_open_r path : keeps_refused (open_r path).
Proof. intros w. unfold open_r. now destruct (fs w !! path). Qed.

Lemma keeps_try_false (body : M bool) (msg : exn -> str) :
  keeps_refused body ->
  keeps_refused
    (try_except body [(is_Exception, fun e => LOG (msg e) ;; ret false)]).
Proof.
  intros Hb w. unfold try_except. specialize (Hb w).
  destruct (body w) as [[b|e] w1]; cbn [snd dispatch] in *; [exact Hb|].
  now destruct (is_Exception e).
Qed.

Lemma keeps_for_recipients page rest :
  forall len i, keeps_refused (for_recipients env page len i rest).
Proof.
  induction rest as [|r rest IH]; intros len i; cbn [for_recipients].
  - apply keeps_ret.
  - apply keeps_bind; [apply keeps_call|]. intros _.
    apply keeps_bind; [|intros _; apply IH].
    destruct (i <? len - 1); [|apply keeps_ret].
    apply keeps_bind; [apply keeps_call|]. intros _. apply keeps_call.
Qed.

(** [send_email] has no say in what may be removed. *)
Lemma send_email_refused context d w :
  refused (send_email env context d w).2 = refused w.
Proof.
  revert w. unfold send_email. apply keeps_try_false.
  apply keeps_bind; [apply keeps_pages_0|]. intros page.
  repeat (apply keeps_bind;
          [first [apply keeps_LOG | apply keeps_call
                 | apply keeps_for_recipients | apply keeps_open_r]|];
          intros ?).
  apply keeps_ret.
Qed.

Lemma is_file_present path w content :
  fs w !! path = Some content -> is_file path w = (Ok true, w).
Proof.
  intros H. unfold is_file. rewrite H.
  now rewrite bool_decide_eq_true_2 by eauto.
Qed.

Lemma is_file_absent path w :
  fs w !! path = None -> is_file path w = (Ok false, w).
Proof.
  intros H. unfold is_file. rewrite H.
  rewrite bool_decide_eq_false_2; [reflexivity|]. now intros [x [=]].
Qed.

(** No trigger file: the look changes nothing at all. *)
Lemma poll_once_absent context triggerFile w :
  fs w !! triggerFile = None ->
  poll_once env context triggerFile w = (Ok tt, w).
Proof.
  intros H. unfold poll_once, try_except, bind.
  now rewrite (is_file_absent _ _ H).
Qed.

(** A trigger file of three lines or more: the look is the send and
    what follows it. *)
Lemma poll_once_request context triggerFile w content l0 l1 l2 more :
  fs w !! triggerFile = Some content ->
  readlines content = l0 :: l1 :: l2 :: more ->
  poll_once env context triggerFile w =
  try_except
    (email_sent <- send_email env context
                     {| recipient := strip l0; subject := strip l1;
                        body_file := strip l2 |} ;;
     if email_sent : bool then
       os_remove triggerFile ;;
       LOG (lit "Notification file processed and removed: " ++ triggerFile)
     else
       LOG (lit "Failed to send email. Notification file not removed: " ++ triggerFile))
    [(is_Exception,
      fun e => LOG (lit "Error in listen_for_email_requests: " ++ exn_msg e))]
    (record (EvLog (lit "Notification file found: " ++ triggerFile)) w).
Proof.
  intros Hf Hl. unfold poll_once at 1, try_except at 1.
  unfold bind at 1. rewrite (is_file_present _ _ _ Hf).
  unfold bind at 1. unfold LOG at 1.
  unfold bind at 1. unfold open_r at 1. cbn [fs record]. rewrite Hf, Hl.
  reflexivity.
Qed.

Lemma listen_loop_absent_step context triggerFile cycles w :
  fs w !! triggerFile = None ->
  listen_loop env (S cycles) context triggerFile w =
  (call env (Sleep 5) ;; listen_loop env cycles context triggerFile) w.
Proof.
  intros Hw. cbn [listen_loop]. unfold bind at 1.
  now rewrite (poll_once_absent _ _ _ Hw).
Qed.

(** While the trigger file is away, rounds of the loop only sleep. *)
Lemma listen_loop_absent context triggerFile cycles :
  forall w, fs w !! triggerFile = None ->
    exists evs,
      trace (listen_loop env cycles context triggerFile w).2 = trace w ++ evs
      /\ fs (listen_loop env cycles context triggerFile w).2 = fs w
      /\ Forall (fun ev => exists o, ev = EvCall (Sleep 5) o) evs.
Proof.
  induction cycles as [|cycles IH]; intros w Hw.
  - exists []. simpl. now rewrite app_nil_r.
  - rewrite (listen_loop_absent_step _ _ _ _ Hw). unfold bind, call.
    destruct (env (trace w) (Sleep 5)) as [|e] eqn:Ho; cbv beta iota zeta.
    + destruct (IH (record (EvCall (Sleep 5) Done) w) Hw) as (evs & Ht & Hf & Hall).
      exists (EvCall (Sleep 5) Done :: evs). rewrite Ht, Hf.
      cbn [trace fs record]. rewrite <- app_assoc.
      repeat split; auto. constructor; eauto.
    + exists [EvCall (Sleep 5) (Raised e)]. cbn [snd trace fs record].
      repeat split; auto. constructor; eauto.
Qed.

End SenderFacts.

(** ** Runs that come to their end *)

Lemma raised_app evs1 evs2 : raised (evs1 ++ evs2) = raised evs1 ++ raised evs2.
Proof.
  induction evs1 as [|[msg|a [|e]] evs1 IH]; cbn [raised app]; auto.
  now rewrite IH.
Qed.

Lemma Forall_prefix {A : Type} (P : A -> Prop) (l s : list A) :
  l `prefix_of` s -> Forall P s -> Forall P l.
Proof. intros [k ->] H. now apply Forall_app in H. Qed.

Section Finishes.
Variable env : Env.
Variable F : gmap str str.
Variable n : nat.

Lemma finishes_ret {A} (post : result A -> Prop) (a : A) :
  post (Ok a) -> finishes F n [] post (ret a).
Proof.
  intros Hpost w Hw Hp. exists []. cbn. rewrite app_nil_r. auto.
Qed.

Lemma finishes_call (a : action) : finishes F n [a] returns (call env a).
Proof.
  intros w Hw Hp. exists [EvCall a (env (trace w) a)]. unfold call. cbn.
  repeat split; auto.
  destruct (env (trace w) a); [now exists tt|discriminate].
Qed.

Lemma finishes_LOG (msg : str) : finishes F n [] returns (LOG msg).
Proof.
  intros w Hw Hp. exists [EvLog msg]. unfold LOG. cbn.
  repeat split; auto. now exists tt.
Qed.

Lemma finishes_bind {A B} (post : result B -> Prop) s1 s2
    (m : M A) (k : A -> M B) :
  finishes F n s1 returns m ->
  (forall a, finishes F n s2 post (k a)) ->
  finishes F n (s1 ++ s2) post (bind m k).
Proof.
  intros Hm Hk w Hw Hp. destruct (Hm w Hw Hp) as (evs1 & Ht1 & Hf1 & Hp1 & Hq1).
  unfold bind. destruct (m w) as [[a|e] w1] eqn:Hmw; cbn [fst snd] in *.
  - destruct (Hk a w1 Hf1 Hp1) as (evs2 & Ht2 & Hf2 & Hp2 & Hq2).
    exists (evs1 ++ evs2). rewrite Ht2, Ht1, app_assoc.
    split; [reflexivity|]. split; [exact Hf2|]. split; [exact Hp2|].
    rewrite raised_app, calls_app. intros Hr.
    apply app_eq_nil in Hr as [Hr1 Hr2].
    destruct (Hq1 Hr1) as [-> _]. destruct (Hq2 Hr2) as [-> Hpost]. auto.
  - exists evs1. split; [exact Ht1|]. split; [exact Hf1|]. split; [exact Hp1|].
    intros Hr. destruct (Hq1 Hr) as [_ [a [=]]].
Qed.

Lemma finishes_then_call {B} (post : result B -> Prop) a script (k : unit -> M B) :
  finishes F n script post (k tt) ->
  finishes F n (a :: script) post (bind (call env a) k).
Proof.
  intros Hk. apply (finishes_bind post [a] script); [apply finishes_call|].
  now intros [].
Qed.

Lemma finishes_then_LOG {B} (post : result B -> Prop) msg script (k : unit -> M B) :
  finishes F n script post (k tt) ->
  finishes F n script post (bind (LOG msg) k).
Proof.
  intros Hk. apply (finishes_bind post [] script); [apply finishes_LOG|].
  now intros [].
Qed.

Lemma finishes_then_pages_0 {B} (post : result B -> Prop) script (k : nat -> M B) :
  (0 < n)%nat ->
  finishes F n script post (k O) ->
  finishes F n script post (bind pages_0 k).
Proof.
  intros Hn Hk w Hw Hp. unfold bind, pages_0.
  destruct (pages w) as [|p] eqn:Hpw; [lia|].
  apply Hk; first [assumption | congruence].
Qed.

Lemma finishes_then_open_r {B} (post : result B -> Prop) path content script
    (k : str -> M B) :
  F !! path = Some content ->
  finishes F n script post (k content) ->
  finishes F n script post (bind (open_r path) k).
Proof.
  intros Hc Hk w Hw Hp. unfold bind, open_r. rewrite Hw, Hc. now apply Hk.
Qed.

Lemma finishes_open_r_missing {B} (post : result B -> Prop) path (k : str -> M B) :
  F !! path = None ->
  post (Raise (no_such_file path)) ->
  finishes F n [] post (bind (open_r path) k).
Proof.
  intros Hc Hpost w Hw Hp. unfold bind, open_r. rewrite Hw, Hc.
  exists []. cbn. rewrite app_nil_r. auto.
Qed.

(** [try: body  except Exception as e: LOG(...); return False] *)
Lemma finishes_try_false script (post post' : result bool -> Prop)
    (body : M bool) (msg : exn -> str) :
  finishes F n script post body ->
  (forall b, post (Ok b) -> post' (Ok b)) ->
  (forall e, post (Raise e) -> is_Exception e = true /\ post' (Ok false)) ->
  finishes F n script post'
    (try_except body [(is_Exception, fun e => LOG (msg e) ;; ret false)]).
Proof.
  intros Hb Hok Hraise w Hw Hp.
  destruct (Hb w Hw Hp) as (evs & Ht & Hf & Hpg & Hq).
  unfold try_except. destruct (body w) as [[b|e] w1] eqn:Hbw; cbn [fst snd] in *.
  - exists evs. split; [exact Ht|]. split; [exact Hf|]. split; [exact Hpg|].
    intros Hr. destruct (Hq Hr) as [Hc Hpost]. auto.
  - cbn [dispatch]. destruct (is_Exception e) eqn:He.
    + exists (evs ++ [EvLog (msg e)]). unfold bind, LOG, ret. cbn.
      rewrite Ht, app_assoc, raised_app, calls_app. cbn. rewrite !app_nil_r.
      split; [reflexivity|]. split; [exact Hf|]. split; [exact Hpg|].
      intros Hr. destruct (Hq Hr) as [Hc Hpost].
      split; [exact Hc|]. now apply Hraise in Hpost.
    + exists evs. unfold raise. cbn.
      split; [exact Ht|]. split; [exact Hf|]. split; [exact Hpg|].
      intros Hr. destruct (Hq Hr) as [Hc Hpost].
      apply Hraise in Hpost as [Habs _]. congruence.
Qed.

Lemma finishes_for_recipients page rest :
  forall len i, len = i + Z.of_nat (length rest) ->
    finishes F n (recipients_script page rest) returns
      (for_recipients env page len i rest).
Proof.
  induction rest as [|r rest IH]; intros len i Hlen.
  - apply finishes_ret. now exists tt.
  - cbn [for_recipients recipients_script].
    destruct rest as [|r' rest'].
    + replace (i <? len - 1) with false
        by (symmetry; apply Z.ltb_ge; simpl in Hlen; lia).
      apply finishes_then_call.
      apply (finishes_bind returns [] []);
        [apply finishes_ret; now exists tt|].
      intros _. apply finishes_ret. now exists tt.
    + replace (i <? len - 1) with true
        by (symmetry; apply Z.ltb_lt; cbn [length] in Hlen; lia).
      apply finishes_then_call.
      apply (finishes_bind returns
               [KeyboardType page (lit ","); KeyboardPress page (lit "Space")]).
      * apply finishes_then_call, finishes_call.
      * intros _. apply IH. cbn [length] in *. lia.
Qed.

Lemma send_email_finishes context d :
  (0 < n)%nat ->
  finishes F n (script_of F O d)
    (fun r => r = Ok (bool_decide (is_Some (F !! body_file d))))
    (send_email env context d).
Proof.
  intros Hn. unfold send_email, script_of.
  destruct (F !! body_file d) as [content|] eqn:Hbody.
  - apply (finishes_try_false _ (fun r => r = Ok true));
      [|intros b ->; reflexivity|intros e [=]].
    apply finishes_then_pages_0; [exact Hn|].
    unfold send_script.
    apply finishes_then_LOG, finishes_then_call, finishes_then_call,
      finishes_then_LOG.
    apply finishes_bind; [apply finishes_for_recipients; lia|]. intros _.
    apply finishes_then_call, finishes_then_call, finishes_then_LOG.
    apply (finishes_then_open_r _ _ content); [exact Hbody|].
    apply finishes_then_call, finishes_then_LOG, finishes_then_call,
      finishes_then_LOG, finishes_then_call, finishes_then_LOG.
    now apply finishes_ret.
  - apply (finishes_try_false _
             (fun r => r = Raise (no_such_file (body_file d))));
      [|intros b [=]|intros e [= ->]; split; reflexivity].
    apply finishes_then_pages_0; [exact Hn|].
    unfold compose_script.
    apply finishes_then_LOG, finishes_then_call, finishes_then_call,
      finishes_then_LOG.
    apply finishes_bind; [apply finishes_for_recipients; lia|]. intros _.
    replace [Fill O sel_subject (strip (subject d)); KeyboardPress O (lit "Tab")]
      with ([Fill O sel_subject (strip (subject d)); KeyboardPress O (lit "Tab")]
            ++ []) by apply app_nil_r.
    cbn [app].
    apply finishes_then_call, finishes_then_call, finishes_then_LOG.
    now apply finishes_open_r_missing.
Qed.

End Finishes.

(** ** Claims about the sender *)

Section SenderClaims.
Variable env : Env.

Lemma str_eqb_refl s : str_eqb s s = true.
Proof. induction s as [|c s IH]; simpl; [reflexivity|]. now rewrite N.eqb_refl. Qed.

Lemma prefix_app_cases {A : Type} (l a b : list A) :
  l `prefix_of` a ++ b -> l `prefix_of` a \/ exists rest, l = a ++ rest.
Proof.
  revert l. induction a as [|x a IH]; intros l H.
  - right. now exists l.
  - destruct l as [|y l].
    + left. apply prefix_nil.
    + simpl in H. pose proof (prefix_cons_inv_1 _ _ _ _ H) as ->.
      apply prefix_cons_inv_2 in H. destruct (IH l H) as [Hp|[rest ->]].
      * left. now apply prefix_cons.
      * right. now exists rest.
Qed.

Lemma split_length sep s : length (split sep s) = S (occurrences sep s).
Proof.
  induction s as [|c s IH]; simpl; [reflexivity|].
  destruct (c =? sep)%N; simpl; [now rewrite IH|].
  destruct (split sep s); simpl in *; congruence.
Qed.

Lemma to_fills_To page value script :
  to_fills (Fill page sel_to value :: script) = value :: to_fills script.
Proof.
  change (to_fills (Fill page sel_to value :: script))
    with (if str_eqb sel_to sel_to then value :: to_fills script
          else to_fills script).
  now rewrite str_eqb_refl.
Qed.

Lemma to_fills_recipients page recipients :
  to_fills (recipients_script page recipients) = map strip recipients.
Proof.
  induction recipients as [|r rest IH]; [reflexivity|].
  cbn [recipients_script]. destruct rest as [|r' rest'].
  - now rewrite to_fills_To.
  - rewrite to_fills_To.
    change (to_fills (KeyboardType page (lit ",") :: KeyboardPress page (lit "Space")
                      :: recipients_script page (r' :: rest')))
      with (to_fills (recipients_script page (r' :: rest'))).
    now rewrite IH.
Qed.

Lemma after_fills_recipients page r rest :
  after_fills (recipients_script page (r :: rest)) =
  repeat [KeyboardType page (lit ","); KeyboardPress page (lit "Space")]
         (length rest) ++ [[]].
Proof.
  revert r. induction rest as [|r' rest IH]; intros r; [reflexivity|].
  change (recipients_script page (r :: r' :: rest))
    with (Fill page sel_to (strip r) :: KeyboardType page (lit ",")
          :: KeyboardPress page (lit "Space")
          :: recipients_script page (r' :: rest)).
  cbn [after_fills length repeat app]. rewrite IH. f_equal.
  cbn [recipients_script]. now destruct rest.
Qed.

Lemma to_fills_app s1 s2 : to_fills (s1 ++ s2) = to_fills s1 ++ to_fills s2.
Proof.
  induction s1 as [|a s1 IH]; [reflexivity|].
  destruct a; cbn [to_fills app]; auto.
  destruct (str_eqb selector sel_to); cbn [app]; now rewrite IH.
Qed.

Lemma script_of_shape F d :
  exists tail,
    script_of F O d =
    [Click O sel_new_mail; WaitForSelector O sel_to None]
    ++ recipients_script O (split comma (recipient d))
    ++ Fill O sel_subject (strip (subject d)) :: KeyboardPress O (lit "Tab") :: tail
    /\ to_fills tail = []
    /\ (tail = [] \/
        exists content,
          F !! body_file d = Some content
          /\ tail = [KeyboardType O (strip (read content));
                     KeyboardPress O (lit "Control+Enter");
                     WaitForSelector O sel_sent (Some 30000)]).
Proof.
  unfold script_of. destruct (F !! body_file d) as [content|]; eexists;
    unfold send_script, compose_script; cbn [app];
    (split; [reflexivity|]); (split; [reflexivity|]); eauto.
Qed.

Lemma to_fills_script_of F d :
  to_fills (script_of F O d) = map strip (split comma (recipient d)).
Proof.
  destruct (script_of_shape F d) as (tail & -> & Htail & _).
  rewrite !to_fills_app, to_fills_recipients.
  change (to_fills (Fill O sel_subject (strip (subject d))
                    :: KeyboardPress O (lit "Tab") :: tail))
    with (to_fills tail).
  rewrite Htail. cbn. now rewrite app_nil_r.
Qed.

(** Every way [send_email] can go, by its calls. *)
Lemma send_email_run context d w :
  let run := send_email env context d w in
  exists evs,
    trace run.2 = trace w ++ evs
    /\ calls evs `prefix_of` script_of (fs w) O d
    /\ (run.1 = Ok true -> calls evs = script_of (fs w) O d)
    /\ ((0 < pages w)%nat -> raised evs = [] ->
        calls evs = script_of (fs w) O d
        /\ run.1 = Ok (bool_decide (is_Some (fs w !! body_file d)))).
Proof.
  intros run.
  destruct (send_email_plays env (fs w) context d w eq_refl)
    as (evs & Ht & _ & _ & Hpre & Hall).
  exists evs. fold run in Ht, Hall. split; [exact Ht|].
  split; [exact Hpre|]. split; [intros Hok; exact (Hall true Hok eq_refl)|].
  intros Hpages Hr.
  destruct (send_email_finishes env (fs w) (pages w) context d Hpages w
              eq_refl eq_refl) as (evs' & Ht' & _ & _ & Hq).
  fold run in Ht'. rewrite Ht in Ht'. apply app_inv_head in Ht'. subst evs'.
  exact (Hq Hr).
Qed.

(** C4.  In [send_email], a recipient line with N comma-separated
    addresses (N is one more than the number of commas) gives N fills
    of the To field, one per address, in the order of the line and with
    the address stripped; after each of the first N-1 fills a comma is
    typed and Space is pressed, after the last fill nothing: the next
    call is the fill of the subject.  With a page open, every run of
    [send_email] issues the calls of the send in this order, these
    fills right after the opening of the compose form and no other fill
    of the To field: the run has filled the To field with the first
    addresses of the line, one fill each, as far as it got; a run in
    which no call raised, and a send that returns [True], has issued
    every call and so has filled the To field N times. *)
Theorem send_email_fills_each_recipient context d w :
  (0 < pages w)%nat ->
  let recipients := split comma (recipient d) in
  let opening := [Click O sel_new_mail; WaitForSelector O sel_to None] in
  let script := script_of (fs w) O d in
  let run := send_email env context d w in
  length recipients = S (occurrences comma (recipient d))
  /\ to_fills (recipients_script O recipients) = map strip recipients
  /\ after_fills (recipients_script O recipients) =
     repeat [KeyboardType O (lit ","); KeyboardPress O (lit "Space")]
            (length recipients - 1) ++ [[]]
  /\ (exists tail,
        script = opening ++ recipients_script O recipients
                 ++ Fill O sel_subject (strip (subject d)) :: tail)
  /\ to_fills script = map strip recipients
  /\ exists evs,
       trace run.2 = trace w ++ evs
       /\ calls evs `prefix_of` script
       /\ to_fills (calls evs) `prefix_of` map strip recipients
       /\ (raised evs = [] ->
           calls evs = script /\ to_fills (calls evs) = map strip recipients)
       /\ (run.1 = Ok true ->
           calls evs = script /\ to_fills (calls evs) = map strip recipients).
Proof.
  intros Hpages recipients opening script run.
  split; [apply split_length|]. split; [apply to_fills_recipients|]. split.
  { pose proof (split_length comma (recipient d)) as Hlen.
    fold recipients in Hlen. destruct recipients as [|r rest]; [discriminate|].
    rewrite after_fills_recipients.
    now replace (length (r :: rest) - 1)%nat with (length rest)
      by (cbn [length]; lia). }
  split.
  { destruct (script_of_shape (fs w) d) as (tail & Hs & _). eexists. exact Hs. }
  pose proof (to_fills_script_of (fs w) d) as Hfills.
  fold script recipients in Hfills. split; [exact Hfills|].
  destruct (send_email_run context d w) as (evs & Ht & Hpre & Hok & Hdone).
  fold run script in Ht, Hpre, Hok, Hdone.
  exists evs. split; [exact Ht|]. split; [exact Hpre|]. split.
  { destruct Hpre as [more Hmore]. exists (to_fills more).
    now rewrite <- Hfills, Hmore, to_fills_app. }
  split.
  - intros Hr. destruct (Hdone Hpages Hr) as [Hc _].
    split; [exact Hc|]. now rewrite Hc.
  - intros Htrue. specialize (Hok Htrue). split; [exact Hok|]. now rewrite Hok.
Qed.

Lemma body_typed_recipients page recipients tail :
  body_typed (recipients_script page recipients ++ tail) = body_typed tail.
Proof.
  induction recipients as [|r rest IH]; [reflexivity|].
  cbn [recipients_script]. destruct rest as [|r' rest']; [reflexivity|].
  exact IH.
Qed.

Lemma body_typed_send_script page d body :
  body_typed (send_script page d body) = Some body.
Proof.
  unfold send_script. cbn [body_typed].
  now rewrite body_typed_recipients.
Qed.

Lemma body_typed_app script more text :
  body_typed script = Some text -> body_typed (script ++ more) = Some text.
Proof.
  induction script as [|a script IH]; [discriminate|].
  destruct a; cbn [body_typed app]; auto.
  destruct (str_eqb key (lit "Tab")); auto.
  destruct script as [|[] script']; try discriminate. auto.
Qed.

Lemma is_tab_recipients page recipients :
  Forall (fun a => is_tab a = false) (recipients_script page recipients).
Proof.
  induction recipients as [|r rest IH]; [constructor|].
  cbn [recipients_script]. destruct rest as [|r' rest'].
  - repeat constructor.
  - repeat (constructor; [reflexivity|]). exact IH.
Qed.

Lemma after_tab_free s rest :
  Forall (fun a => is_tab a = false) s -> after_tab (s ++ rest) = after_tab rest.
Proof.
  induction 1 as [|a s Ha Hs IH]; [reflexivity|].
  cbn [app after_tab]. now rewrite Ha.
Qed.

Lemma after_tab_none s :
  Forall (fun a => is_tab a = false) s -> after_tab s = [].
Proof.
  intros H. rewrite <- (app_nil_r s). now rewrite after_tab_free.
Qed.

(** What a run of a whole send has typed into the body: nothing yet,
    or the body. *)
Lemma typed_in_body_prefix page d body calls_so_far :
  calls_so_far `prefix_of` send_script page d body ->
  typed_in_body calls_so_far = [] \/ typed_in_body calls_so_far = [body].
Proof.
  set (before := Click page sel_new_mail :: WaitForSelector page sel_to None
                 :: recipients_script page (split comma (recipient d))
                 ++ [Fill page sel_subject (strip (subject d))]).
  assert (Hfree : Forall (fun a => is_tab a = false) before).
  { subst before. repeat (constructor; [reflexivity|]).
    apply Forall_app. split; [apply is_tab_recipients|]. repeat constructor. }
  assert (Hs : send_script page d body =
               before ++ KeyboardPress page (lit "Tab")
               :: [KeyboardType page body;
                   KeyboardPress page (lit "Control+Enter");
                   WaitForSelector page sel_sent (Some 30000)]).
  { subst before. unfold send_script. cbn [app]. now rewrite <- app_assoc. }
  rewrite Hs. intros Hpre. unfold typed_in_body.
  destruct (prefix_app_cases _ _ _ Hpre) as [Hp|[rest ->]].
  - left. rewrite after_tab_none; [reflexivity|].
    now apply (Forall_prefix _ _ before).
  - apply prefix_app_inv in Hpre. rewrite after_tab_free by exact Hfree.
    destruct rest as [|a rest]; [now left|].
    pose proof (prefix_cons_inv_1 _ _ _ _ Hpre) as ->.
    apply prefix_cons_inv_2 in Hpre. cbn [after_tab is_tab].
    change (str_eqb (lit "Tab") (lit "Tab")) with true. cbv iota.
    destruct rest as [|a1 rest]; [now left|].
    pose proof (prefix_cons_inv_1 _ _ _ _ Hpre) as ->.
    apply prefix_cons_inv_2 in Hpre. right.
    destruct rest as [|a2 rest]; [reflexivity|].
    pose proof (prefix_cons_inv_1 _ _ _ _ Hpre) as ->.
    apply prefix_cons_inv_2 in Hpre.
    destruct rest as [|a3 rest]; [reflexivity|].
    pose proof (prefix_cons_inv_1 _ _ _ _ Hpre) as ->.
    apply prefix_cons_inv_2 in Hpre.
    apply prefix_nil_inv in Hpre as ->. reflexivity.
Qed.

Lemma typed_in_body_send_script page d body :
  typed_in_body (send_script page d body) = [body].
Proof.
  unfold typed_in_body, send_script.
  change (Click page sel_new_mail :: WaitForSelector page sel_to None
          :: recipients_script page (split comma (recipient d)) ++
             [Fill page sel_subject (strip (subject d));
              KeyboardPress page (lit "Tab"); KeyboardType page body;
              KeyboardPress page (lit "Control+Enter");
              WaitForSelector page sel_sent (Some 30000)])
    with ([Click page sel_new_mail; WaitForSelector page sel_to None]
          ++ recipients_script page (split comma (recipient d)) ++
             [Fill page sel_subject (strip (subject d));
              KeyboardPress page (lit "Tab"); KeyboardType page body;
              KeyboardPress page (lit "Control+Enter");
              WaitForSelector page sel_sent (Some 30000)]).
  rewrite after_tab_free by (repeat constructor).
  rewrite after_tab_free by apply is_tab_recipients.
  reflexivity.
Qed.

(** C6, as the code has it.  When the body file can be opened, the
    text [send_email] types into the message body is the text of the
    body file as Python reads it in text mode, that is with every line
    end turned into a line feed, stripped of white space at both ends.
    The calls of a run are the first calls of the send that types this
    text, so all that a run has typed after the Tab that leaves the
    subject is nothing yet or this text, once; a send that returns
    [True] has issued every call of that send and typed the text, and
    so has, with a page open, a run in which no call raised. *)
Theorem send_email_types_stripped_body context d w content :
  fs w !! body_file d = Some content ->
  let body := strip (read content) in
  let run := send_email env context d w in
  typed_in_body (send_script O d body) = [body]
  /\ exists evs,
       trace run.2 = trace w ++ evs
       /\ calls evs `prefix_of` send_script O d body
       /\ (typed_in_body (calls evs) = [] \/ typed_in_body (calls evs) = [body])
       /\ (run.1 = Ok true ->
           calls evs = send_script O d body
           /\ typed_in_body (calls evs) = [body])
       /\ ((0 < pages w)%nat -> raised evs = [] ->
           run.1 = Ok true /\ typed_in_body (calls evs) = [body])
       /\ (forall text, body_typed (calls evs) = Some text -> text = body)
       /\ (run.1 = Ok true -> body_typed (calls evs) = Some body).
Proof.
  intros Hbody body run. split; [apply typed_in_body_send_script|].
  destruct (send_email_run context d w) as (evs & Ht & Hpre & Hok & Hdone).
  unfold script_of in Hpre, Hok, Hdone. rewrite Hbody in Hpre, Hok, Hdone.
  fold body run in Ht, Hpre, Hok, Hdone.
  exists evs. split; [exact Ht|]. split; [exact Hpre|].
  split; [now apply (typed_in_body_prefix O d)|]. split.
  { intros Htrue. specialize (Hok Htrue). split; [exact Hok|].
    rewrite Hok. apply typed_in_body_send_script. }
  split.
  { intros Hpages Hr. destruct (Hdone Hpages Hr) as [Hc Hres].
    split; [exact Hres|]. rewrite Hc. apply typed_in_body_send_script. }
  split.
  - intros text Htyped. destruct Hpre as [more Hmore].
    pose proof (body_typed_app _ more _ Htyped) as H.
    rewrite <- Hmore, body_typed_send_script in H. congruence.
  - intros Htrue. rewrite (Hok Htrue). apply body_typed_send_script.
Qed.

(** The look at a trigger file whose request is sent and whose removal
    the operating system allows. *)
Lemma poll_once_sent context triggerFile w content l0 l1 l2 more w1 :
  fs w !! triggerFile = Some content ->
  refused w !! triggerFile = None ->
  readlines content = l0 :: l1 :: l2 :: more ->
  send_email env context
    {| recipient := strip l0; subject := strip l1; body_file := strip l2 |}
    (record (EvLog (lit "Notification file found: " ++ triggerFile)) w)
  = (Ok true, w1) ->
  poll_once env context triggerFile w =
  (Ok tt,
   record (EvLog (lit "Notification file processed and removed: " ++ triggerFile))
          (remove_file triggerFile w1))
  /\ fs w1 = fs w.
Proof.
  intros Hf Hr Hl Hs.
  pose proof (send_email_fs env context
    {| recipient := strip l0; subject := strip l1; body_file := strip l2 |}
    (record (EvLog (lit "Notification file found: " ++ triggerFile)) w)) as Hfs.
  pose proof (send_email_refused env context
    {| recipient := strip l0; subject := strip l1; body_file := strip l2 |}
    (record (EvLog (lit "Notification file found: " ++ triggerFile)) w)) as Hrs.
  rewrite Hs in Hfs, Hrs. cbn [snd fs refused record] in Hfs, Hrs.
  split; [|exact Hfs].
  rewrite (poll_once_request env _ _ _ _ _ _ _ _ Hf Hl).
  unfold try_except, bind. rewrite Hs. cbv beta iota. unfold os_remove.
  now rewrite Hfs, Hf, Hrs, Hr.
Qed.

(** The look at a trigger file whose request is sent and whose removal
    the operating system refuses: the [PermissionError] is taken by the
    [except Exception] of the loop body and the file stays. *)
Lemma poll_once_sent_refused context triggerFile w content l0 l1 l2 more w1 text :
  fs w !! triggerFile = Some content ->
  refused w !! triggerFile = Some text ->
  readlines content = l0 :: l1 :: l2 :: more ->
  send_email env context
    {| recipient := strip l0; subject := strip l1; body_file := strip l2 |}
    (record (EvLog (lit "Notification file found: " ++ triggerFile)) w)
  = (Ok true, w1) ->
  poll_once env context triggerFile w =
  (Ok tt, record (EvLog (lit "Error in listen_for_email_requests: " ++ text)) w1)
  /\ fs w1 = fs w.
Proof.
  intros Hf Hr Hl Hs.
  pose proof (send_email_fs env context
    {| recipient := strip l0; subject := strip l1; body_file := strip l2 |}
    (record (EvLog (lit "Notification file found: " ++ triggerFile)) w)) as Hfs.
  pose proof (send_email_refused env context
    {| recipient := strip l0; subject := strip l1; body_file := strip l2 |}
    (record (EvLog (lit "Notification file found: " ++ triggerFile)) w)) as Hrs.
  rewrite Hs in Hfs, Hrs. cbn [snd fs refused record] in Hfs, Hrs.
  split; [|exact Hfs].
  rewrite (poll_once_request env _ _ _ _ _ _ _ _ Hf Hl).
  unfold try_except, bind. rewrite Hs. cbv beta iota. unfold os_remove.
  now rewrite Hfs, Hf, Hrs, Hr.
Qed.

(** The look at a trigger file whose request is not sent. *)
Lemma poll_once_not_sent context triggerFile w content l0 l1 l2 more w1 :
  fs w !! triggerFile = Some content ->
  readlines content = l0 :: l1 :: l2 :: more ->
  send_email env context
    {| recipient := strip l0; subject := strip l1; body_file := strip l2 |}
    (record (EvLog (lit "Notification file found: " ++ triggerFile)) w)
  = (Ok false, w1) ->
  poll_once env context triggerFile w =
  (Ok tt,
   record (EvLog (lit "Failed to send email. Notification file not removed: "
                  ++ triggerFile)) w1)
  /\ fs w1 = fs w.
Proof.
  intros Hf Hl Hs.
  pose proof (send_email_fs env context
    {| recipient := strip l0; subject := strip l1; body_file := strip l2 |}
    (record (EvLog (lit "Notification file found: " ++ triggerFile)) w)) as Hfs.
  rewrite Hs in Hfs. cbn [snd fs record] in Hfs. split; [|exact Hfs].
  rewrite (poll_once_request env _ _ _ _ _ _ _ _ Hf Hl).
  unfold try_except, bind. now rewrite Hs.
Qed.

(** The look at a trigger file during whose send the task is stopped. *)
Lemma poll_once_interrupted context triggerFile w content l0 l1 l2 more e w1 :
  fs w !! triggerFile = Some content ->
  readlines content = l0 :: l1 :: l2 :: more ->
  send_email env context
    {| recipient := strip l0; subject := strip l1; body_file := strip l2 |}
    (record (EvLog (lit "Notification file found: " ++ triggerFile)) w)
  = (Raise e, w1) ->
  poll_once env context triggerFile w = (Raise e, w1) /\ fs w1 = fs w.
Proof.
  intros Hf Hl Hs.
  pose proof (send_email_fs env context
    {| recipient := strip l0; subject := strip l1; body_file := strip l2 |}
    (record (EvLog (lit "Notification file found: " ++ triggerFile)) w)) as Hfs.
  rewrite Hs in Hfs. cbn [snd fs record] in Hfs. split; [|exact Hfs].
  rewrite (poll_once_request env _ _ _ _ _ _ _ _ Hf Hl).
  unfold try_except, bind. rewrite Hs. cbn [dispatch].
  now rewrite (send_email_raise env _ _ _ _ _ Hs).
Qed.

(** C1, as the code has it.  For a trigger file of at least three
    lines, one look of the dispatcher calls [os.remove] on the trigger
    file exactly when [send_email] returns [True], and the file is gone
    afterwards exactly when, besides, the operating system allows the
    removal.  When the removal is refused, the [PermissionError] is
    taken by the [except Exception] of the loop body: the look ends
    normally and the trigger file is in place with the same content.
    When [send_email] returns [False] the file store is the one before
    the look; the same holds when the send does not return at all
    because the task was stopped. *)
Theorem poll_once_removes_iff_sent context triggerFile w content l0 l1 l2 more :
  fs w !! triggerFile = Some content ->
  readlines content = l0 :: l1 :: l2 :: more ->
  let email_details :=
    {| recipient := strip l0; subject := strip l1; body_file := strip l2 |} in
  let sent :=
    send_email env context email_details
      (record (EvLog (lit "Notification file found: " ++ triggerFile)) w) in
  let after := poll_once env context triggerFile w in
  match sent.1 with
  | Ok true =>
      after.1 = Ok tt
      /\ match refused w !! triggerFile with
         | None =>
             fs after.2 = delete triggerFile (fs w)
             /\ fs after.2 !! triggerFile = None
             /\ trace after.2 =
                trace sent.2
                ++ [EvLog (lit "Notification file processed and removed: "
                           ++ triggerFile)]
         | Some text =>
             fs after.2 = fs w
             /\ fs after.2 !! triggerFile = Some content
             /\ trace after.2 =
                trace sent.2
                ++ [EvLog (lit "Error in listen_for_email_requests: " ++ text)]
         end
  | Ok false =>
      after.1 = Ok tt
      /\ fs after.2 = fs w
      /\ fs after.2 !! triggerFile = Some content
  | Raise e =>
      after.1 = Raise e
      /\ fs after.2 = fs w
      /\ fs after.2 !! triggerFile = Some content
  end.
Proof.
  intros Hf Hl email_details sent after. subst after.
  destruct sent as [[[|]|e] w1] eqn:Hs; subst sent email_details; cbn [fst snd].
  - destruct (refused w !! triggerFile) as [text|] eqn:Hr.
    + destruct (poll_once_sent_refused _ _ _ _ _ _ _ _ _ _ Hf Hr Hl Hs)
        as [-> Hfs].
      cbn [fst snd fs trace record]. rewrite Hfs. auto.
    + destruct (poll_once_sent _ _ _ _ _ _ _ _ _ Hf Hr Hl Hs) as [-> Hfs].
      cbn [fst snd fs trace record remove_file]. rewrite Hfs.
      repeat split. apply lookup_delete_eq.
  - destruct (poll_once_not_sent _ _ _ _ _ _ _ _ _ Hf Hl Hs) as [-> Hfs].
    cbn [fst snd fs record]. rewrite Hfs. auto.
  - destruct (poll_once_interrupted _ _ _ _ _ _ _ _ _ _ Hf Hl Hs) as [-> Hfs].
    cbn [fst snd]. rewrite Hfs. auto.
Qed.

(** C3.  For a trigger file of fewer than three lines, one look of the
    dispatcher ends normally: reading the missing line raises
    [IndexError] and the [except Exception] of the loop body takes it.
    The look adds two log lines and nothing else, so there is no browser
    call and no send; the trigger file stays as it is; and the loop
    goes on to its sleep and to the next round. *)
Theorem poll_once_short_file context triggerFile w content :
  fs w !! triggerFile = Some content ->
  (length (readlines content) < 3)%nat ->
  let after :=
    record (EvLog (lit "Error in listen_for_email_requests: list index out of range"))
      (record (EvLog (lit "Notification file found: " ++ triggerFile)) w) in
  poll_once env context triggerFile w = (Ok tt, after)
  /\ fs after = fs w
  /\ fs after !! triggerFile = Some content
  /\ calls (drop (length (trace w)) (trace after)) = []
  /\ forall cycles,
       listen_loop env (S cycles) context triggerFile w =
       (call env (Sleep 5) ;; listen_loop env cycles context triggerFile) after.
Proof.
  intros Hf Hlen after.
  assert (Hrun : poll_once env context triggerFile w = (Ok tt, after)).
  { unfold poll_once, try_except. unfold bind at 1.
    rewrite (is_file_present _ _ _ Hf). unfold bind at 1. unfold LOG at 1.
    unfold bind at 1. unfold open_r at 1. cbn [fs record]. rewrite Hf.
    destruct (readlines content) as [|l0 [|l1 [|l2 more]]];
      [reflexivity|reflexivity|reflexivity|cbn [length] in Hlen; lia]. }
  split; [exact Hrun|]. split; [reflexivity|]. split; [exact Hf|]. split.
  - subst after. cbn [trace record]. rewrite <- app_assoc.
    now rewrite drop_app_length.
  - intros cycles. cbn [listen_loop]. unfold bind at 1. now rewrite Hrun.
Qed.

(** C9.  When the trigger file does not exist, one look of the
    dispatcher changes nothing: no log line, no browser call, no
    exception.  The loop then sleeps five seconds and looks again, and
    as long as the file stays away any number of rounds adds nothing to
    the trace but these sleeps: after a request has been sent and its
    trigger file removed, going round the loop again sends nothing. *)
Theorem poll_once_no_file context triggerFile w :
  fs w !! triggerFile = None ->
  poll_once env context triggerFile w = (Ok tt, w)
  /\ (forall cycles,
        listen_loop env (S cycles) context triggerFile w =
        (call env (Sleep 5) ;; listen_loop env cycles context triggerFile) w)
  /\ (forall cycles,
        exists evs,
          trace (listen_loop env cycles context triggerFile w).2 = trace w ++ evs
          /\ fs (listen_loop env cycles context triggerFile w).2 = fs w
          /\ Forall (fun ev => exists o, ev = EvCall (Sleep 5) o) evs).
Proof.
  intros Hw. split; [now apply poll_once_absent|].
  split; intros cycles.
  - now apply listen_loop_absent_step.
  - now apply listen_loop_absent.
Qed.

(** The second round after a request was sent: the file is gone, the
    look does nothing. *)
Lemma second_look_after_sent context triggerFile w content l0 l1 l2 more w1 :
  fs w !! triggerFile = Some content ->
  readlines content = l0 :: l1 :: l2 :: more ->
  send_email env context
    {| recipient := strip l0; subject := strip l1; body_file := strip l2 |}
    (record (EvLog (lit "Notification file found: " ++ triggerFile)) w)
  = (Ok true, w1) ->
  refused w !! triggerFile = None ->
  env (trace (poll_once env context triggerFile w).2) (Sleep 5) = Done ->
  exists w2,
    listen_loop env 1 context triggerFile w = (Ok tt, w2)
    /\ poll_once env context triggerFile w2 = (Ok tt, w2).
Proof.
  intros Hf Hl Hs Hr Hsleep.
  destruct (poll_once_sent _ _ _ _ _ _ _ _ _ Hf Hr Hl Hs) as [Hrun Hfs].
  rewrite Hrun in Hsleep. cbn [snd] in Hsleep.
  eexists. split.
  - cbn [listen_loop]. unfold bind at 1. rewrite Hrun.
    unfold bind, call. rewrite Hsleep. reflexivity.
  - apply poll_once_absent. cbn [fs record remove_file].
    apply lookup_delete_eq.
Qed.

(** C2.  [async_main] calls [OutlookConfig] without [username], which
    has no default: every run of the sender's entry point raises
    [TypeError] there and leaves the world as it found it, so no
    browser is started and no round of the loop is run. *)
Theorem async_main_missing_username cycles options w :
  async_main env cycles options w =
  (Raise (Exn TypeError
            (lit "OutlookConfig.__init__() missing 1 required positional argument: 'username'")),
   w).
Proof. reflexivity. Qed.

End SenderClaims.

(** *** The sender claims on the scenarios *)

Lemma send_email_fills_each_recipient_witness :
  exists evs,
    trace (send_email env_ok the_context details_request world_request).2
    = trace world_request ++ evs
    /\ calls evs = script_of (fs world_request) O details_request
    /\ to_fills (calls evs) = [lit "alice@example.com"; lit "bob@example.com"].
Proof.
  pose proof (send_email_fills_each_recipient env_ok the_context details_request
                world_request ltac:(cbn; lia)) as H.
  cbv zeta in H.
  destruct H as (_ & _ & _ & _ & _ & evs & Ht & _ & _ & Hdone & Htrue).
  exists evs. split; [exact Ht|].
  assert (Hsent : (send_email env_ok the_context details_request world_request).1
                  = Ok true) by reflexivity.
  destruct (Htrue Hsent) as [Hc Hf]. split; [exact Hc|]. exact Hf.
Defined.

Lemma send_email_types_stripped_body_witness :
  exists evs,
    trace (send_email env_ok the_context details_request world_request).2
    = trace world_request ++ evs
    /\ calls evs = send_script O details_request (strip (read (lit "Hello team")))
    /\ typed_in_body (calls evs) = [strip (read (lit "Hello team"))]
    /\ (forall text, body_typed (calls evs) = Some text ->
        text = strip (read (lit "Hello team")))
    /\ body_typed (calls evs) = Some (strip (read (lit "Hello team"))).
Proof.
  pose proof (send_email_types_stripped_body env_ok the_context details_request
                world_request (lit "Hello team") eq_refl) as H.
  cbv zeta in H.
  destruct H as (_ & evs & Ht & _ & _ & Htrue & _ & Honly & Hbody).
  assert (Hsent : (send_email env_ok the_context details_request world_request).1
                  = Ok true) by reflexivity.
  exists evs. split; [exact Ht|]. destruct (Htrue Hsent) as [Hc Htyped].
  split; [exact Hc|]. split; [exact Htyped|]. split; [exact Honly|].
  exact (Hbody Hsent).
Defined.

(** C6, as it was stated, fails: with every call completing and a body
    file that reads [" Hello\r\nteam\r\n"], the send returns [True] and
    has typed ["Hello\nteam"], while the file with only its trailing
    white space removed is [" Hello\r\nteam"]. *)
Lemma send_email_body_not_only_right_trimmed :
  let run := send_email env_ok the_context details_request world_padded_body in
  let content := lit " Hello" ++ [CR; LF] ++ lit "team" ++ [CR; LF] in
  fs world_padded_body !! body_file details_request = Some content
  /\ run.1 = Ok true
  /\ body_typed (calls (trace run.2)) = Some (lit "Hello" ++ [LF] ++ lit "team")
  /\ rstrip content = lit " Hello" ++ [CR; LF] ++ lit "team"
  /\ body_typed (calls (trace run.2)) <> Some (rstrip content).
Proof.
  vm_compute. repeat split; discriminate.
Qed.

Lemma poll_once_removes_iff_sent_witness :
  (poll_once env_ok the_context trigger_path world_request).1 = Ok tt
  /\ fs (poll_once env_ok the_context trigger_path world_request).2
     = delete trigger_path (fs world_request)
  /\ fs (poll_once env_ok the_context trigger_path world_request).2
     !! trigger_path = None.
Proof.
  pose proof (poll_once_removes_iff_sent env_ok the_context trigger_path
                world_request trigger_text
                (lit "alice@example.com,bob@example.com" ++ [LF])
                (lit "Project update" ++ [LF]) (lit "/tmp/body.txt") []
                eq_refl eq_refl) as H.
  cbv zeta in H.
  assert (Hsent :
    (send_email env_ok the_context
       {| recipient := strip (lit "alice@example.com,bob@example.com" ++ [LF]);
          subject := strip (lit "Project update" ++ [LF]);
          body_file := strip (lit "/tmp/body.txt") |}
       (record (EvLog (lit "Notification file found: " ++ trigger_path))
          world_request)).1 = Ok true) by reflexivity.
  assert (Hallowed : refused world_request !! trigger_path = None) by reflexivity.
  rewrite Hsent, Hallowed in H.
  destruct H as (H1 & H2 & H3 & _). auto.
Defined.

(** C1, as it was stated, fails: with every call completing and a
    trigger file the operating system refuses to remove, the send
    returns [True], the look ends normally, and the trigger file is
    still there, with the same content; the refusal is only logged. *)
Lemma poll_once_keeps_file_when_removal_refused :
  let sent :=
    send_email env_ok the_context details_request
      (record (EvLog (lit "Notification file found: " ++ trigger_path))
         world_protected) in
  let after := poll_once env_ok the_context trigger_path world_protected in
  fs world_protected !! trigger_path = Some trigger_text
  /\ sent.1 = Ok true
  /\ after.1 = Ok tt
  /\ fs after.2 !! trigger_path = Some trigger_text
  /\ fs after.2 = fs world_protected
  /\ trace after.2 =
     trace sent.2
     ++ [EvLog (lit "Error in listen_for_email_requests: [Errno 1] Operation not permitted: '/tmp/notification.txt'")].
Proof.
  vm_compute. repeat split.
Qed.

Lemma poll_once_short_file_witness :
  poll_once env_ok the_context trigger_path world_short_request =
  (Ok tt,
   record (EvLog (lit "Error in listen_for_email_requests: list index out of range"))
     (record (EvLog (lit "Notification file found: " ++ trigger_path))
        world_short_request)).
Proof.
  apply (poll_once_short_file env_ok the_context trigger_path
           world_short_request
           (lit "alice@example.com" ++ [LF] ++ lit "Project update")).
  - reflexivity.
  - vm_compute. lia.
Defined.

Lemma poll_once_no_file_witness :
  poll_once env_ok the_context trigger_path world_start = (Ok tt, world_start).
Proof.
  apply (poll_once_no_file env_ok the_context trigger_path world_start).
  reflexivity.
Defined.

(** The same request when the sent confirmation never shows: the send
    gives [False] and the trigger file is where it was. *)
Example unconfirmed_send_keeps_request :
  let run := poll_once env_not_sent the_context trigger_path world_request in
  run.1 = Ok tt
  /\ fs run.2 = fs world_request
  /\ fs run.2 !! trigger_path = Some trigger_text.
Proof. vm_compute. auto. Qed.

(** The request of the description, two rounds: one send, then only
    the sleeps. *)
Example two_rounds_one_send :
  let run := listen_loop env_ok 2 the_context trigger_path world_request in
  run.1 = Ok tt
  /\ calls (trace run.2) =
     send_script O details_request (lit "Hello team") ++ [Sleep 5; Sleep 5]
  /\ fs run.2 !! trigger_path = None.
Proof. vm_compute. auto. Qed.

(** ** Authentication *)

Section AuthClaims.
Variable env : Env.

(** Running a program by hand: take the calls in order and split on what
    the environment answers. *)
Ltac next_call :=
  match goal with
  | |- context [env ?h ?a] =>
      lazymatch h with
      | context [env _ _] => fail
      | _ => destruct (env h a) as [|?e] eqn:?Hcall
      end
  end;
  cbn [trace record add_page pages fs fst snd dispatch raise].

Ltac next_clause :=
  match goal with
  | |- context [is_Exception ?e] => destruct (is_Exception e) eqn:?Hexc
  | |- context [is_PlaywrightTimeoutError ?e] =>
      destruct (is_PlaywrightTimeoutError e) eqn:?Htimeout
  end;
  cbn [trace record add_page pages fs fst snd dispatch raise].

Ltac run_all := repeat (first [next_call | next_clause]).

Ltac open_program :=
  unfold authenticate_outlook, try_except, new_page, bind, call, LOG, ret, raise;
  cbn [trace record add_page pages fs fst snd dispatch raise].

Ltac trace_grows :=
  rewrite <- ?app_assoc; cbn [app]; reflexivity.

Ltac tidy := cbn [trace record add_page pages fs fst snd dispatch raise].

(** Follow the answers that the hypotheses fix. *)
Ltac replay :=
  repeat (match goal with
          | H : env ?h ?a = _ |- context [env ?h ?a] => rewrite H; clear H
          end; tidy).

(** Name the events before the last ones of an explicit list. *)
Ltac cut_before :=
  lazymatch goal with
  | |- exists before, ?l = before ++ ?suffix /\ _ =>
      let b := eval cbn [firstn length Nat.sub] in
                 (firstn (length l - length suffix) l) in
      exists b
  | |- exists before, ?l = before ++ ?suffix =>
      let b := eval cbn [firstn length Nat.sub] in
                 (firstn (length l - length suffix) l) in
      exists b
  end.

(** Every call that raised in an explicit list is a swallowed one. *)
Ltac all_swallowed :=
  let a := fresh "a" in
  let e := fresh "e" in
  let Hin := fresh "Hin" in
  intros a e Hin; cbn [In] in Hin;
  repeat (destruct Hin as [Hin|Hin]; [try discriminate Hin|]);
  try contradiction;
  try (injection Hin as <- <-; unfold swallowed; cbn [on_stay_signed_in];
       rewrite str_eqb_refl;
       match goal with
       | H : is_PlaywrightTimeoutError ?x = true |- _ => rewrite H
       end; reflexivity).

Ltac not_swallowed :=
  unfold swallowed;
  first [ reflexivity
        | match goal with
          | H : is_PlaywrightTimeoutError ?x = false |- _ => rewrite H
          end; apply andb_false_r ].

Lemma handoff_script_avoids_password page config :
  Forall (fun a => on_password_field a = false) (handoff_script page config).
Proof. repeat constructor. Qed.

(** C5.  With a username set, [authenticate_outlook] issues, as far as
    it gets, the calls: new page, go to the mailbox URL, fill the email
    field, click submit, wait for the "New mail" landmark.  None of its
    calls addresses the password field, and the one click on submit is
    the one that follows the email; a run that returns [True] issued all
    five and logged the hand-off to manual authentication. *)
Theorem authenticate_outlook_username_skips_password context config w :
  username config <> [] ->
  let run := authenticate_outlook env context config w in
  exists evs,
    trace run.2 = trace w ++ evs
    /\ calls evs `prefix_of` handoff_script (pages w) config
    /\ Forall (fun a => on_password_field a = false) (calls evs)
    /\ (run.1 = Ok true ->
        calls evs = handoff_script (pages w) config
        /\ In (EvLog (lit "Internal authentication -- please handle the authentication manually"))
              evs).
Proof.
  intros Hname run.
  assert (H : exists evs,
    trace run.2 = trace w ++ evs
    /\ calls evs `prefix_of` handoff_script (pages w) config
    /\ (run.1 = Ok true ->
        calls evs = handoff_script (pages w) config
        /\ In (EvLog (lit "Internal authentication -- please handle the authentication manually"))
              evs)).
  { subst run. open_program.
    destruct (username config) as [|c name] eqn:Hn; [contradiction|].
    run_all;
      (eexists; split; [trace_grows|]; split;
       [cbn [calls]; unfold handoff_script; eexists; cbn [app]; reflexivity|];
       intros Hok;
       first [discriminate Hok | split; [reflexivity|cbn [In]; tauto]]). }
  destruct H as (evs & Ht & Hpre & Hok). exists evs.
  repeat split; try assumption; try (now apply Hok).
  eapply Forall_prefix; [exact Hpre|apply handoff_script_avoids_password].
Qed.

(** Every way [authenticate_outlook] can go. *)
Lemma authenticate_outlook_run context config w :
  let run := authenticate_outlook env context config w in
  let landmark := WaitForSelector (pages w) sel_new_mail (Some 60000) in
  exists evs,
    trace run.2 = trace w ++ evs
    /\ fs run.2 = fs w
    /\ Forall (fun a => released a = None) (calls evs)
    /\ match run.1 with
       | Ok true =>
           (exists before,
              evs = before ++ [EvCall landmark Done;
                               EvLog (lit "Authenticated successfully.")])
           /\ (forall a e, In (EvCall a (Raised e)) evs -> swallowed a e = true)
       | Ok false =>
           exists a e before,
             evs = before ++ [EvCall a (Raised e);
                              EvLog (lit "Error during authentication: " ++ exn_msg e)]
             /\ is_Exception e = true
             /\ swallowed a e = false
             /\ (forall a' e',
                   In (EvCall a' (Raised e')) before -> swallowed a' e' = true)
       | Raise e =>
           is_Exception e = false
           /\ exists a before,
                evs = before ++ [EvCall a (Raised e)]
                /\ (forall a' e',
                      In (EvCall a' (Raised e')) before -> swallowed a' e' = true)
       end.
Proof.
  intros run landmark. subst run landmark. open_program.
  destruct (username config) as [|c name] eqn:Hn.
  all: run_all.
  all: eexists; split; [trace_grows|]; split; [reflexivity|].
  all: split; [cbn [calls]; repeat constructor|].
  all: lazymatch goal with
       | |- (exists before, _) /\ _ =>
           split; [cut_before; reflexivity|all_swallowed]
       | |- exists a e before, _ =>
           eexists; eexists; cut_before; split; [reflexivity|];
           split; [assumption|]; split; [not_swallowed|all_swallowed]
       | |- _ = false /\ _ =>
           split; [assumption|]; eexists; cut_before;
           split; [reflexivity|all_swallowed]
       end.
Qed.

(** C7, as the code has it.  [authenticate_outlook] returns a boolean,
    or is stopped by an exception that is not an [Exception]
    ([KeyboardInterrupt], [CancelledError]), which it lets through; it
    never returns anything else.  An [Exception] raised by a browser
    call is always caught: a Playwright timeout of the wait for, or the
    click on, the "stay signed in" element is swallowed and the sequence
    goes on; any other ends the sequence, is logged and gives [False].
    It returns [True] only when the wait for the "New mail" landmark
    has completed, as its last call, and then every exception raised on
    the way was a swallowed one. *)
Theorem authenticate_outlook_result context config w :
  let run := authenticate_outlook env context config w in
  let landmark := WaitForSelector (pages w) sel_new_mail (Some 60000) in
  exists evs,
    trace run.2 = trace w ++ evs
    /\ match run.1 with
       | Ok true =>
           (exists before,
              evs = before ++ [EvCall landmark Done;
                               EvLog (lit "Authenticated successfully.")])
           /\ (forall a e, In (EvCall a (Raised e)) evs -> swallowed a e = true)
       | Ok false =>
           exists a e before,
             evs = before ++ [EvCall a (Raised e);
                              EvLog (lit "Error during authentication: " ++ exn_msg e)]
             /\ is_Exception e = true
             /\ swallowed a e = false
             /\ (forall a' e',
                   In (EvCall a' (Raised e')) before -> swallowed a' e' = true)
       | Raise e =>
           is_Exception e = false
           /\ exists a before,
                evs = before ++ [EvCall a (Raised e)]
                /\ (forall a' e',
                      In (EvCall a' (Raised e')) before -> swallowed a' e' = true)
       end.
Proof.
  intros run landmark.
  destruct (authenticate_outlook_run context config w)
    as (evs & Ht & _ & _ & H).
  exists evs. split; assumption.
Qed.

(** C8.  In the flow with a password (no username), let every call up
    to the password submit complete and let the wait for the "stay
    signed in" element raise a Playwright timeout.  Then the next call
    of [authenticate_outlook] is the wait for the "New mail" landmark,
    and the result is [True] exactly when that wait completes. *)
Theorem stay_signed_in_timeout_continues context config w e :
  username config = [] ->
  is_PlaywrightTimeoutError e = true ->
  let page := pages w in
  let prompt := WaitForSelector page sel_stay_signed_in (Some 60000) in
  let landmark := WaitForSelector page sel_new_mail (Some 60000) in
  answers env (trace w)
    (password_events page config ++ [EvCall prompt (Raised e)]) ->
  let h :=
    trace w ++ password_events page config
    ++ [EvCall prompt (Raised e);
        EvLog (lit "No 'Stay signed in?' prompt detected. Continuing...");
        EvLog (lit "Waiting for the final page to load")] in
  let run := authenticate_outlook env context config w in
  (exists rest, trace run.2 = h ++ EvCall landmark (env h landmark) :: rest)
  /\ (env h landmark = Done <-> run.1 = Ok true).
Proof.
  intros Hn Htimeout page prompt landmark Hans h run.
  subst run h landmark prompt page.
  unfold password_events in *. cbn [answers app] in Hans.
  destruct Hans as (H1 & H2 & H3 & H4 & H5 & H6 & H7 & H8 & _).
  open_program. rewrite Hn. replay. rewrite Htimeout. tidy.
  rewrite <- ?app_assoc. cbn [app].
  match goal with
  | |- context [env ?h ?a] => destruct (env h a) as [|e'] eqn:Hlandmark
  end; tidy.
  - split; [eexists; trace_grows|]. tauto.
  - destruct (is_Exception e'); tidy;
      (split; [eexists; trace_grows|]); split; discriminate.
Qed.

Lemma releases_app r evs1 evs2 :
  releases r (evs1 ++ evs2) = (releases r evs1 + releases r evs2)%nat.
Proof.
  induction evs1 as [|[msg|a o] evs1 IH]; cbn [releases app]; auto.
  destruct (is_resource r (released a)); cbn; auto.
Qed.

Lemma releases_none r evs :
  Forall (fun a => released a = None) (calls evs) -> releases r evs = O.
Proof.
  induction evs as [|[msg|a o] evs IH]; cbn [releases calls]; auto.
  intros H. apply Forall_cons in H as [Ha H]. rewrite Ha. cbn. auto.
Qed.

(** A session set up in full. *)
Lemma setup_browser_complete w :
  answers env (trace w) setup_events ->
  exists w1,
    setup_browser env w =
    (Ok (Some the_playwright, Some the_browser, Some the_context), w1)
    /\ trace w1 = trace w ++ setup_events.
Proof.
  intros Hans. unfold setup_events in *. cbn [answers] in Hans.
  destruct Hans as (H1 & H2 & H3 & H4 & _).
  eexists. unfold setup_browser, try_except, bind, call, LOG, ret. tidy.
  replay. split; [reflexivity|]. tidy. trace_grows.
Qed.

(** X16.  After a full setup, [authenticate] calls each of the three releases
    once, whether [authenticate_outlook] returns [True], returns
    [False] or is stopped, provided closing the context and the browser
    complete. *)
Lemma authenticate_releases_once options w :
  answers env (trace w) setup_events ->
  (forall h, env h ContextClose = Done) ->
  (forall h, env h BrowserClose = Done) ->
  let run := authenticate env options w in
  exists evs,
    trace run.2 = trace w ++ evs
    /\ forall r, releases r evs = 1%nat.
Proof.
  intros Hans Hcontext Hbrowser run. subst run.
  destruct (setup_browser_complete w Hans) as (w1 & Hsetup & Ht1).
  unfold authenticate, OutlookConfig_init. unfold bind at 1. unfold ret at 1.
  unfold bind at 1. rewrite Hsetup. unfold try_finally.
  set (config := {| email := _ |}).
  destruct (authenticate_outlook_run the_context config w1)
    as (evs & Ht & _ & Hrel & _).
  unfold bind at 1.
  destruct (authenticate_outlook env the_context config w1) as [[sent|e] w2];
    cbn [fst snd] in Ht.
  - set (verdict :=
           EvLog (if sent
                  then lit "Authentication was successful. You can proceed with sending emails."
                  else lit "Authentication failed. Please check your credentials and try again.")).
    exists (setup_events ++ evs
            ++ [verdict; EvCall ContextClose Done; EvCall BrowserClose Done;
                EvCall PlaywrightStop
                  (env (((trace w2 ++ [verdict]) ++ [EvCall ContextClose Done])
                        ++ [EvCall BrowserClose Done]) PlaywrightStop)]).
    split.
    + subst verdict.
      destruct sent; cbn [truthy andb]; unfold bind, call, LOG; tidy;
        rewrite Hcontext; tidy; rewrite Hbrowser; tidy;
        destruct (env _ PlaywrightStop); tidy;
        rewrite Ht, Ht1; trace_grows.
    + intros r. rewrite !releases_app, (releases_none r evs Hrel).
      destruct r; reflexivity.
  - exists (setup_events ++ evs
            ++ [EvCall ContextClose Done; EvCall BrowserClose Done;
                EvCall PlaywrightStop
                  (env ((trace w2 ++ [EvCall ContextClose Done])
                        ++ [EvCall BrowserClose Done]) PlaywrightStop)]).
    split.
    + cbn [truthy andb]; unfold bind, call, LOG; tidy;
        rewrite Hcontext; tidy; rewrite Hbrowser; tidy;
        destruct (env _ PlaywrightStop); tidy;
        rewrite Ht, Ht1; trace_grows.
    + intros r. rewrite !releases_app, (releases_none r evs Hrel).
      destruct r; reflexivity.
Qed.

End AuthClaims.

(** *** The authentication claims on the scenarios *)

Lemma authenticate_outlook_username_skips_password_witness :
  exists evs,
    trace (authenticate_outlook env_ok the_context config_internal world_start).2
    = trace world_start ++ evs
    /\ calls evs `prefix_of` handoff_script O config_internal
    /\ Forall (fun a => on_password_field a = false) (calls evs)
    /\ ((authenticate_outlook env_ok the_context config_internal world_start).1
        = Ok true ->
        calls evs = handoff_script O config_internal
        /\ In (EvLog (lit "Internal authentication -- please handle the authentication manually"))
              evs).
Proof.
  apply (authenticate_outlook_username_skips_password env_ok the_context
           config_internal world_start).
  discriminate.
Defined.

(** C7, as it was stated, fails twice.  When the "stay signed in"
    element never shows, its wait raises a timeout (an [Exception]) and
    the result is nevertheless [True], not a failure.  When the task is
    cancelled while the page loads, nothing is caught and no boolean is
    returned. *)
Lemma authenticate_outlook_not_every_exception_fails :
  let run :=
    authenticate_outlook env_no_prompt the_context config_password world_start in
  let stopped :=
    authenticate_outlook env_cancelled the_context config_password world_start in
  raised (trace run.2) =
    [(WaitForSelector O sel_stay_signed_in (Some 60000), timeout_60s)]
  /\ is_Exception timeout_60s = true
  /\ run.1 = Ok true
  /\ raised (trace stopped.2) =
       [(Goto O default_outlook_url, Exn CancelledError [])]
  /\ stopped.1 = Raise (Exn CancelledError []).
Proof. vm_compute. repeat split. Qed.

Lemma stay_signed_in_timeout_continues_witness :
  (authenticate_outlook env_no_prompt the_context config_password world_start).1
  = Ok true.
Proof.
  apply (stay_signed_in_timeout_continues env_no_prompt the_context
           config_password world_start timeout_60s).
  - reflexivity.
  - reflexivity.
  - vm_compute. tauto.
  - reflexivity.
Defined.

(** C10 fails on the code.  When the driver starts and the browser does
    not, [setup_browser] answers with three [None] and the handle of
    the running driver is lost: [authenticate] ends normally, the
    driver was acquired once and its release is never called. *)
Theorem authenticate_leaks_driver_when_launch_fails :
  let run := authenticate env_no_browser options_password world_start in
  run.1 = Ok tt
  /\ trace run.2 =
     [EvCall StartPlaywright Done;
      EvCall (LaunchChromium false)
        (Raised (Exn PlaywrightError (lit "Executable doesn't exist")));
      EvLog (lit "Error setting up browser: Executable doesn't exist");
      EvLog (lit "Browser context was not defined. Critical error")]
  /\ acquisitions Driver (trace run.2) = 1%nat
  /\ releases Driver (trace run.2) = 0%nat.
Proof. vm_compute. repeat split. Qed.

(** ** More about the text operations *)


Section Text.

Lemma lstrip_spec s :
  exists pre,
    s = pre ++ lstrip s
    /\ Forall (fun c => is_space c = true) pre
    /\ starts_with_space (lstrip s) = false.
Proof.
  induction s as [|c s (pre & Hs & Hpre & Hstart)].
  - now exists [].
  - cbn [lstrip]. destruct (is_space c) eqn:Hc.
    + exists (c :: pre). cbn [app]. rewrite <- Hs. auto.
    + exists []. cbn. auto.
Qed.

Lemma lstrip_fixed s : starts_with_space s = false -> lstrip s = s.
Proof. destruct s as [|c s]; [reflexivity|]. cbn. now intros ->. Qed.

Lemma strip_spec s :
  exists pre post,
    s = pre ++ strip s ++ post
    /\ Forall (fun c => is_space c = true) pre
    /\ Forall (fun c => is_space c = true) post
    /\ starts_with_space (strip s) = false
    /\ ends_with_space (strip s) = false.
Proof.
  destruct (lstrip_spec s) as (pre & Hs & Hpre & Hstart).
  destruct (lstrip_spec (rev (lstrip s))) as (tail & Ht & Htail & Hend).
  assert (Hmid : lstrip s = strip s ++ rev tail).
  { unfold strip, rstrip. rewrite <- rev_app_distr, <- Ht. now rewrite rev_involutive. }
  exists pre, (rev tail). split; [now rewrite <- Hmid|].
  split; [exact Hpre|]. split; [now apply Forall_rev|]. split.
  - destruct (strip s) as [|c t] eqn:Hstrip; [reflexivity|].
    rewrite Hmid in Hstart. exact Hstart.
  - unfold ends_with_space, strip, rstrip. now rewrite rev_involutive.
Qed.

Lemma strip_fixed s :
  starts_with_space s = false -> ends_with_space s = false -> strip s = s.
Proof.
  intros Hstart Hend. unfold strip, rstrip. rewrite (lstrip_fixed s Hstart).
  rewrite (lstrip_fixed (rev s) Hend). apply rev_involutive.
Qed.

(** X1.  [s.strip()] removes white space at both ends and nothing else:
    [s] is the stripped text with white space before and after it, the
    stripped text neither starts nor ends with white space, and
    stripping twice is stripping once. *)
Theorem strip_trims_both_ends s :
  (exists pre post,
     s = pre ++ strip s ++ post
     /\ Forall (fun c => is_space c = true) pre
     /\ Forall (fun c => is_space c = true) post)
  /\ starts_with_space (strip s) = false
  /\ ends_with_space (strip s) = false
  /\ strip (strip s) = strip s.
Proof.
  destruct (strip_spec s) as (pre & post & Hs & Hpre & Hpost & Hstart & Hend).
  split; [now exists pre, post|]. split; [exact Hstart|]. split; [exact Hend|].
  now apply strip_fixed.
Qed.

Lemma split_nonempty sep s : split sep s <> [].
Proof.
  destruct s as [|c s]; cbn; [discriminate|].
  destruct (c =? sep)%N; [discriminate|]. now destruct (split sep s).
Qed.

Lemma join_split sep s : join sep (split sep s) = s.
Proof.
  induction s as [|c s IH]; [reflexivity|]. cbn [split].
  destruct (c =? sep)%N eqn:Hc.
  - apply N.eqb_eq in Hc as ->. cbn [join].
    destruct (split sep s) as [|p ps] eqn:Hsp; [now apply split_nonempty in Hsp|].
    cbn [app]. now rewrite IH.
  - destruct (split sep s) as [|p ps] eqn:Hsp; [now apply split_nonempty in Hsp|].
    cbn [join] in *. destruct ps; cbn [app]; now rewrite IH.
Qed.

Lemma split_pieces_free sep s : Forall (fun piece => ~ In sep piece) (split sep s).
Proof.
  induction s as [|c s IH]; cbn [split].
  - repeat constructor. auto.
  - destruct (c =? sep)%N eqn:Hc.
    + constructor; auto.
    + apply N.eqb_neq in Hc.
      destruct (split sep s) as [|p ps]; [repeat constructor; cbn; intuition|].
      apply Forall_cons in IH as [Hp Hps]. constructor; [|exact Hps].
      cbn. intuition.
Qed.

Lemma keepends_concat s : concat (keepends s) = s.
Proof.
  induction s as [|c s IH]; [reflexivity|]. cbn [keepends].
  destruct (c =? LF)%N.
  - cbn. now rewrite IH.
  - destruct (keepends s) as [|l ls]; cbn in *; now rewrite <- IH.
Qed.

(** Every line ends at its first line feed. *)
Lemma keepends_lines s :
  Forall (fun line => exists body,
            (line = body ++ [LF] \/ line = body /\ body <> [])
            /\ ~ In LF body)
         (keepends s).
Proof.
  induction s as [|c s IH]; cbn [keepends]; [constructor|].
  destruct (c =? LF)%N eqn:Hc.
  - apply N.eqb_eq in Hc as ->. constructor; [|exact IH].
    exists []. split; [now left|]. auto.
  - apply N.eqb_neq in Hc. destruct (keepends s) as [|l ls].
    + repeat constructor. exists [c]. split; [right; split; [reflexivity|discriminate]|].
      cbn. intuition.
    + apply Forall_cons in IH as [(body & Hl & Hfree) Hls].
      constructor; [|exact Hls]. exists (c :: body). split.
      * destruct Hl as [->|[-> Hne]]; [now left|right; split; [reflexivity|discriminate]].
      * cbn. intuition.
Qed.

Lemma translate_newlines_no_CR s : ~ In CR (translate_newlines s).
Proof.
  remember (length s) as n eqn:Hn. revert s Hn.
  induction n as [n IH] using lt_wf_ind. intros s Hn.
  destruct s as [|c s]; [auto|]. cbn [translate_newlines].
  destruct (c =? CR)%N eqn:Hc.
  - destruct s as [|c' s'].
    + cbn. intros [H|[]]. discriminate.
    + destruct (c' =? LF)%N; cbn [In]; intros [H|H]; try discriminate H.
      * apply (IH (length s')) in H; [auto|cbn in Hn; lia|reflexivity].
      * apply (IH (length (c' :: s'))) in H; [auto|cbn in Hn |- *; lia|reflexivity].
  - apply N.eqb_neq in Hc. cbn [In]. intros [H|H]; [congruence|].
    apply (IH (length s)) in H; [auto|cbn in Hn; lia|reflexivity].
Qed.

Lemma translate_newlines_fixed s : ~ In CR s -> translate_newlines s = s.
Proof.
  induction s as [|c s IH]; [reflexivity|]. intros H. cbn [translate_newlines].
  destruct (c =? CR)%N eqn:Hc.
  - apply N.eqb_eq in Hc. subst c. exfalso. apply H. now left.
  - rewrite IH; [reflexivity|]. intros Hin. apply H. now right.
Qed.

(** X2.  [s.split(sep)] loses nothing: joining the pieces with the
    separator gives [s] back, no piece contains the separator, and
    there is one piece more than there are separators in [s]. *)
Theorem split_pieces_rejoin sep s :
  join sep (split sep s) = s
  /\ Forall (fun piece => ~ In sep piece) (split sep s)
  /\ length (split sep s) = S (occurrences sep s).
Proof.
  split; [apply join_split|]. split; [apply split_pieces_free|].
  apply split_length.
Qed.

(** X3.  [readlines] loses nothing: the lines put together are the
    text read, and every line is a stretch without line feed that ends
    with the line feed, or, for the last line, with the text. *)
Theorem readlines_keeps_text content :
  concat (readlines content) = read content
  /\ Forall (fun line => exists body,
               (line = body ++ [LF] \/ line = body /\ body <> [])
               /\ ~ In LF body)
            (readlines content).
Proof.
  split; [apply keepends_concat|apply keepends_lines].
Qed.

Lemma read_keeps_free before rest :
  ~ In CR before -> read (before ++ rest) = before ++ read rest.
Proof.
  unfold read. induction before as [|c before IH]; intros Hfree; [reflexivity|].
  cbn [app translate_newlines].
  destruct (c =? CR)%N eqn:Hc.
  - apply N.eqb_eq in Hc. subst c. exfalso. apply Hfree. now left.
  - rewrite IH; [reflexivity|]. intros Hin. apply Hfree. now right.
Qed.

(** X4.  Reading a file as text turns its line ends into line feeds:
    the text read holds no carriage return; a file without carriage
    returns is read as it is; at the first carriage return of a file, a
    carriage return followed by a line feed is read as one line feed,
    and a carriage return not followed by a line feed is read as a line
    feed, the text before it unchanged and the text after it read in
    the same way. *)
Theorem read_normalises_line_ends content :
  ~ In CR (read content)
  /\ (~ In CR content -> read content = content)
  /\ (forall before rest,
        ~ In CR before ->
        content = before ++ CR :: LF :: rest ->
        read content = before ++ LF :: read rest)
  /\ (forall before rest,
        ~ In CR before ->
        content = before ++ CR :: rest ->
        (forall rest', rest <> LF :: rest') ->
        read content = before ++ LF :: read rest).
Proof.
  split; [apply translate_newlines_no_CR|].
  split; [apply translate_newlines_fixed|]. split.
  - intros before rest Hfree ->. now rewrite read_keeps_free.
  - intros before rest Hfree -> Hlone. rewrite read_keeps_free by exact Hfree.
    f_equal. unfold read. cbn [translate_newlines].
    change (CR =? CR)%N with true. cbv iota.
    destruct rest as [|c rest]; [reflexivity|].
    destruct (c =? LF)%N eqn:Hc; [|reflexivity].
    apply N.eqb_eq in Hc. subst c. now contradiction (Hlone rest).
Qed.

End Text.


Section TextUse.
Variable env : Env.

Lemma In_strip c s : In c (strip s) -> In c s.
Proof.
  destruct (strip_spec s) as (pre & post & Hs & _). intros H.
  rewrite Hs. apply in_or_app. right. apply in_or_app. now left.
Qed.

(** X5.  Whatever the trigger file holds, no field the dispatcher
    parses from it (a line of [readlines], stripped) contains a line
    feed or a carriage return. *)
Theorem parsed_lines_have_no_line_break content :
  Forall (fun line => ~ In LF (strip line) /\ ~ In CR (strip line))
         (readlines content).
Proof.
  unfold readlines.
  pose proof (keepends_lines (read content)) as Hlines.
  pose proof (keepends_concat (read content)) as Hcat.
  pose proof (translate_newlines_no_CR content) as Hcr. fold (read content) in Hcr.
  apply List.Forall_forall. intros line Hin.
  rewrite List.Forall_forall in Hlines.
  destruct (Hlines line Hin) as (body & Hshape & Hfree). split.
  - intros Hlf.
    destruct (strip_spec line) as (pre & post & Hs & _ & _ & _ & Hend).
    destruct Hshape as [Hl|[Hl _]].
    + destruct post as [|x post _] using rev_ind.
      * rewrite app_nil_r in Hs.
        destruct (strip line) as [|y mid _] using rev_ind; [contradiction|].
        rewrite Hl, app_assoc in Hs. apply app_inj_tail in Hs as [_ <-].
        unfold ends_with_space in Hend. rewrite rev_app_distr in Hend.
        cbn in Hend. discriminate.
      * rewrite Hl in Hlf. rewrite Hl, !app_assoc in Hs.
        apply app_inj_tail in Hs as [Hb _]. apply Hfree. rewrite Hb. apply in_or_app. left. apply in_or_app. now right.
    + apply Hfree. rewrite <- Hl. now apply In_strip.
  - intros Hc. apply Hcr. rewrite <- Hcat. apply in_concat.
    exists line. split; [exact Hin|now apply In_strip].
Qed.

(** X6.  Whatever the recipient line, the files and the answers of
    the browser are, every value a run of [send_email] fills into the
    To field is free of commas and neither starts nor ends with white
    space; the values filled are the first stripped pieces of the
    recipient line, in its order. *)
Theorem recipients_filled_are_clean context d w :
  let run := send_email env context d w in
  exists evs,
    trace run.2 = trace w ++ evs
    /\ to_fills (calls evs) `prefix_of` map strip (split comma (recipient d))
    /\ Forall (fun value =>
                 ~ In comma value
                 /\ starts_with_space value = false
                 /\ ends_with_space value = false)
              (to_fills (calls evs)).
Proof.
  intros run.
  destruct (send_email_run env context d w) as (evs & Ht & Hpre & _).
  exists evs. split; [exact Ht|].
  assert (Hfills : to_fills (calls evs)
                   `prefix_of` map strip (split comma (recipient d))).
  { destruct Hpre as [more Hmore]. exists (to_fills more).
    now rewrite <- (to_fills_script_of (fs w) d), Hmore, to_fills_app. }
  split; [exact Hfills|].
  apply (Forall_prefix _ _ _ Hfills). apply Forall_map.
  eapply Forall_impl; [apply split_pieces_free|].
  intros piece Hfree. cbn beta.
  destruct (strip_spec piece) as (pre & post & Hs & _ & _ & Hstart & Hend).
  repeat split; try assumption. intros Hin. apply Hfree. now apply In_strip.
Qed.

End TextUse.

Section Vouch.
Variable env : Env.
Variable F : gmap str str.
Variable n : nat.
Variable need : Prop.


Lemma vouches_ret {A} (good : A -> Prop) (a : A) :
  need -> vouches F n need good (ret a).
Proof.
  intros Hneed w Hw Hp. exists []. cbn. rewrite app_nil_r. auto.
Qed.

Lemma vouches_bind {A B} (good : B -> Prop) (m : M A) (k : A -> M B) :
  vouches F n True (fun _ => True) m ->
  (forall a, vouches F n need good (k a)) ->
  vouches F n need good (bind m k).
Proof.
  intros Hm Hk w Hw Hp. destruct (Hm w Hw Hp) as (evs1 & Ht1 & Hf1 & Hp1 & Hq1).
  unfold bind. destruct (m w) as [[a|e] w1] eqn:Hmw; cbn [fst snd] in *.
  - destruct (Hk a w1 Hf1 Hp1) as (evs2 & Ht2 & Hf2 & Hp2 & Hq2).
    exists (evs1 ++ evs2). rewrite Ht2, Ht1, app_assoc.
    split; [reflexivity|]. split; [exact Hf2|]. split; [exact Hp2|].
    intros b Hb Hg. destruct (Hq2 b Hb Hg) as [Hn Hr]. split; [exact Hn|].
    rewrite raised_app, Hr. now destruct (Hq1 a eq_refl I) as [_ ->].
  - exists evs1. split; [exact Ht1|]. split; [exact Hf1|]. split; [exact Hp1|].
    intros b Hb. discriminate Hb.
Qed.

Lemma vouches_call (a : action) : vouches F n True (fun _ => True) (call env a).
Proof.
  intros w Hw Hp. exists [EvCall a (env (trace w) a)]. unfold call. cbn.
  repeat split; auto. destruct (env (trace w) a); [reflexivity|discriminate].
Qed.

Lemma vouches_LOG (msg : str) : vouches F n True (fun _ => True) (LOG msg).
Proof. intros w Hw Hp. exists [EvLog msg]. unfold LOG. cbn. auto. Qed.

Lemma vouches_then_call {B} (good : B -> Prop) a (k : unit -> M B) :
  vouches F n need good (k tt) -> vouches F n need good (bind (call env a) k).
Proof. intros Hk. apply vouches_bind; [apply vouches_call|now intros []]. Qed.

Lemma vouches_then_LOG {B} (good : B -> Prop) msg (k : unit -> M B) :
  vouches F n need good (k tt) -> vouches F n need good (bind (LOG msg) k).
Proof. intros Hk. apply vouches_bind; [apply vouches_LOG|now intros []]. Qed.

Lemma vouches_then_pages_0 {B} (good : B -> Prop) (k : nat -> M B) :
  ((0 < n)%nat -> vouches F n need good (k O)) ->
  vouches F n need good (bind pages_0 k).
Proof.
  intros Hk w Hw Hp. unfold bind, pages_0. destruct (pages w) as [|p] eqn:Hpw.
  - exists []. cbn. rewrite app_nil_r. split; [reflexivity|]. split; [exact Hw|].
    split; [congruence|]. intros b [=].
  - apply Hk; first [assumption | lia | congruence].
Qed.

Lemma vouches_then_open_r {B} (good : B -> Prop) path (k : str -> M B) :
  (forall content, F !! path = Some content -> vouches F n need good (k content)) ->
  vouches F n need good (bind (open_r path) k).
Proof.
  intros Hk w Hw Hp. unfold bind, open_r. destruct (fs w !! path) as [c|] eqn:Hl.
  - rewrite Hw in Hl. apply (Hk c Hl w Hw Hp).
  - exists []. cbn. rewrite app_nil_r. split; [reflexivity|]. split; [exact Hw|].
    split; [exact Hp|]. intros b [=].
Qed.

Lemma vouches_try_false (body : M bool) (msg : exn -> str) :
  vouches F n need (fun _ => True) body ->
  vouches F n need (fun b => b = true)
    (try_except body [(is_Exception, fun e => LOG (msg e) ;; ret false)]).
Proof.
  intros Hb w Hw Hp. destruct (Hb w Hw Hp) as (evs & Ht & Hf & Hpg & Hq).
  unfold try_except. destruct (body w) as [[b|e] w1] eqn:Hbw; cbn [fst snd] in *.
  - exists evs. split; [exact Ht|]. split; [exact Hf|]. split; [exact Hpg|].
    intros b' [= <-] _. now apply (Hq b).
  - cbn [dispatch]. destruct (is_Exception e).
    + exists (evs ++ [EvLog (msg e)]). unfold bind, LOG, ret. cbn.
      rewrite Ht, app_assoc. split; [reflexivity|]. split; [exact Hf|].
      split; [exact Hpg|]. intros b [= <-] [=].
    + exists evs. unfold raise. cbn. split; [exact Ht|]. split; [exact Hf|].
      split; [exact Hpg|]. intros b [=].
Qed.

End Vouch.

Section More.
Variable env : Env.

Lemma vouches_for_recipients F n page rest :
  forall len i, vouches F n True (fun _ => True) (for_recipients env page len i rest).
Proof.
  induction rest as [|r rest IH]; intros len i; cbn [for_recipients].
  - now apply vouches_ret.
  - apply vouches_then_call. apply vouches_bind; [|intros _; apply IH].
    destruct (i <? len - 1).
    + apply vouches_then_call, vouches_call.
    + now apply vouches_ret.
Qed.

Lemma send_email_vouches F n context d :
  vouches F n ((0 < n)%nat /\ exists content, F !! body_file d = Some content)
    (fun sent => sent = true) (send_email env context d).
Proof.
  unfold send_email. apply vouches_try_false.
  apply vouches_then_pages_0. intros Hn.
  apply vouches_then_LOG, vouches_then_call, vouches_then_call, vouches_then_LOG.
  apply vouches_bind; [apply vouches_for_recipients|]. intros _.
  apply vouches_then_call, vouches_then_call, vouches_then_LOG.
  apply vouches_then_open_r. intros content Hc.
  apply vouches_then_call, vouches_then_LOG, vouches_then_call, vouches_then_LOG.
  apply vouches_then_call, vouches_then_LOG, vouches_ret. eauto.
Qed.

End More.

(** ** More about the sender *)


Section SenderMore.
Variable env : Env.

(** X7.  When [send_email] returns [True], a page was open, the body
    file could be read, none of its browser calls raised, and the calls
    were the whole send (compose, type the stripped body, press
    Control+Enter, wait for the sent landmark) in this order. *)
Theorem send_email_true_means_sent context d w :
  (send_email env context d w).1 = Ok true ->
  (0 < pages w)%nat
  /\ exists content evs,
       fs w !! body_file d = Some content
       /\ trace (send_email env context d w).2 = trace w ++ evs
       /\ raised evs = []
       /\ calls evs = send_script O d (strip (read content)).
Proof.
  intros Hok.
  destruct (send_email_vouches env (fs w) (pages w) context d w eq_refl eq_refl)
    as (evs & Ht & _ & _ & Hq).
  destruct (Hq true Hok eq_refl) as [[Hpages [content Hbody]] Hraised].
  split; [exact Hpages|]. exists content, evs.
  destruct (send_email_plays env (fs w) context d w eq_refl)
    as (evs' & Ht' & _ & _ & _ & Hall).
  rewrite Ht in Ht'. apply app_inv_head in Ht'. subst evs'.
  rewrite Hbody in Hall.
  split; [exact Hbody|]. split; [exact Ht|]. split; [exact Hraised|].
  exact (Hall true Hok eq_refl).
Qed.

Lemma for_recipients_completes page rest :
  (forall h a, env h a = Done) ->
  forall len i w, (for_recipients env page len i rest w).1 = Ok tt.
Proof.
  intros Henv. induction rest as [|r rest IH]; intros len i w; [reflexivity|].
  cbn [for_recipients]. unfold bind at 1. unfold call at 1. rewrite Henv.
  unfold bind at 1. destruct (i <? len - 1).
  - unfold bind at 1. unfold call at 1. rewrite Henv.
    unfold call at 1. rewrite Henv. apply IH.
  - unfold ret at 1. apply IH.
Qed.

(** X8.  When no browser call raises, a page is open and the body file
    can be opened and read as text (it is in [fs], which holds the
    files of that kind), [send_email] returns [True]. *)
Theorem send_email_succeeds_when_calls_complete context d w content :
  (forall h a, env h a = Done) ->
  (0 < pages w)%nat ->
  fs w !! body_file d = Some content ->
  (send_email env context d w).1 = Ok true.
Proof.
  intros Henv Hpages Hbody. unfold send_email, try_except.
  unfold bind at 1. unfold pages_0 at 1.
  destruct (pages w) as [|p] eqn:Hp; [lia|].
  unfold bind at 1. unfold LOG at 1.
  unfold bind at 1. unfold call at 1. rewrite Henv.
  unfold bind at 1. unfold call at 1. rewrite Henv.
  unfold bind at 1. unfold LOG at 1.
  unfold bind at 1.
  match goal with
  | |- context [for_recipients env ?pg ?len ?i ?rs ?w0] =>
      pose proof (for_recipients_completes pg rs Henv len i w0) as Hloop;
      destruct (plays_for_recipients env (fs w0) pg rs len i
                  ltac:(lia) w0 eq_refl) as (evs & _ & Hfs & _);
      destruct (for_recipients env pg len i rs w0) as [r w1]
  end.
  cbn [fst snd] in Hloop, Hfs. subst r.
  unfold bind at 1. unfold call at 1. rewrite Henv.
  unfold bind at 1. unfold call at 1. rewrite Henv.
  unfold bind at 1. unfold LOG at 1.
  unfold bind at 1. unfold open_r at 1. cbn [fs record].
  rewrite Hfs. cbn [fs record]. rewrite Hbody.
  unfold bind, call, LOG, ret. rewrite !Henv. reflexivity.
Qed.

(** X9.  With no page in the context, [context.pages[0]] raises
    [IndexError]: [send_email] logs it and returns [False] without a
    single browser call. *)
Theorem send_email_without_page context d w :
  pages w = O ->
  send_email env context d w =
  (Ok false,
   record (EvLog (lit "Error sending email: list index out of range")) w).
Proof.
  intros Hp. unfold send_email, try_except, bind, pages_0. rewrite Hp.
  reflexivity.
Qed.

Lemma recipients_script_no_submit page recipients :
  Forall (fun a => is_submit a = false) (recipients_script page recipients).
Proof.
  induction recipients as [|r rest IH]; [constructor|].
  cbn [recipients_script]. destruct rest as [|r' rest'].
  - repeat constructor.
  - repeat (constructor; [reflexivity|]). exact IH.
Qed.

Lemma compose_script_no_submit page d :
  Forall (fun a => is_submit a = false) (compose_script page d).
Proof.
  unfold compose_script. repeat (constructor; [reflexivity|]).
  apply Forall_app. split; [apply recipients_script_no_submit|].
  repeat constructor.
Qed.

Lemma body_typed_compose_script page d : body_typed (compose_script page d) = None.
Proof.
  unfold compose_script. cbn [body_typed].
  now rewrite body_typed_recipients.
Qed.

(** X10.  When the body file does not exist, [send_email] never
    returns [True]; its calls stop at the latest after the Tab into the
    body field: nothing is typed there and Control+Enter is never
    pressed. *)
Theorem send_email_missing_body_never_submits context d w :
  fs w !! body_file d = None ->
  (send_email env context d w).1 <> Ok true
  /\ exists evs,
       trace (send_email env context d w).2 = trace w ++ evs
       /\ calls evs `prefix_of` compose_script O d
       /\ Forall (fun a => is_submit a = false) (calls evs)
       /\ body_typed (calls evs) = None.
Proof.
  intros Hbody. split.
  - intros Hok.
    destruct (send_email_vouches env (fs w) (pages w) context d w eq_refl eq_refl)
      as (evs & _ & _ & _ & Hq).
    destruct (Hq true Hok eq_refl) as [[_ [content Hc]] _]. congruence.
  - destruct (send_email_plays env (fs w) context d w eq_refl)
      as (evs & Ht & _ & _ & Hpre & _).
    rewrite Hbody in Hpre. exists evs. split; [exact Ht|]. split; [exact Hpre|].
    split.
    + destruct Hpre as [more Hmore].
      pose proof (compose_script_no_submit O d) as H. rewrite Hmore in H.
      now apply Forall_app in H.
    + destruct (body_typed (calls evs)) as [text|] eqn:Htyped; [|reflexivity].
      destruct Hpre as [more Hmore].
      pose proof (body_typed_app _ more _ Htyped) as H.
      rewrite <- Hmore, body_typed_compose_script in H. discriminate.
Qed.

(** X11.  [send_email] changes no file and opens no page, and no
    [Exception] leaves it. *)
Theorem send_email_only_reads context d w :
  let run := send_email env context d w in
  fs run.2 = fs w
  /\ pages run.2 = pages w
  /\ (forall e, run.1 = Raise e -> is_Exception e = false).
Proof.
  intros run.
  destruct (send_email_plays env (fs w) context d w eq_refl)
    as (evs & _ & Hfs & Hp & _).
  split; [exact Hfs|]. split; [exact Hp|]. intros e He.
  apply (send_email_raise env context d w e run.2).
  subst run. destruct (send_email env context d w) as [r w1]. cbn in He. now subst r.
Qed.

End SenderMore.

Lemma send_email_true_means_sent_witness :
  (0 < pages world_request)%nat
  /\ exists content evs,
       fs world_request !! body_file details_request = Some content
       /\ trace (send_email env_ok the_context details_request world_request).2
          = trace world_request ++ evs
       /\ raised evs = []
       /\ calls evs = send_script O details_request (strip (read content)).
Proof.
  apply (send_email_true_means_sent env_ok the_context details_request world_request).
  reflexivity.
Defined.

Lemma send_email_succeeds_when_calls_complete_witness :
  (send_email env_ok the_context details_request world_request).1 = Ok true.
Proof.
  apply (send_email_succeeds_when_calls_complete env_ok the_context
           details_request world_request (lit "Hello team")).
  - reflexivity.
  - cbn. lia.
  - reflexivity.
Defined.

Lemma send_email_without_page_witness :
  send_email env_ok the_context details_request world_start =
  (Ok false,
   record (EvLog (lit "Error sending email: list index out of range")) world_start).
Proof.
  apply (send_email_without_page env_ok the_context details_request world_start).
  reflexivity.
Defined.

Lemma send_email_missing_body_never_submits_witness :
  (send_email env_ok the_context details_request world_short_request).1 <> Ok true
  /\ exists evs,
       trace (send_email env_ok the_context details_request world_short_request).2
       = trace world_short_request ++ evs
       /\ calls evs `prefix_of` compose_script O details_request
       /\ Forall (fun a => is_submit a = false) (calls evs)
       /\ body_typed (calls evs) = None.
Proof.
  apply (send_email_missing_body_never_submits env_ok the_context
           details_request world_short_request).
  reflexivity.
Defined.

(** ** More about the polling loop *)


Section PollMore.
Variable env : Env.

(** The look at a trigger file that is too short to hold a request. *)
Lemma poll_once_unparsed context triggerFile w content :
  fs w !! triggerFile = Some content ->
  (length (readlines content) < 3)%nat ->
  poll_once env context triggerFile w =
  (Ok tt,
   record (EvLog (lit "Error in listen_for_email_requests: list index out of range"))
     (record (EvLog (lit "Notification file found: " ++ triggerFile)) w)).
Proof.
  intros Hf Hlen. unfold poll_once, try_except. unfold bind at 1.
  rewrite (is_file_present _ _ _ Hf). unfold bind at 1. unfold LOG at 1.
  unfold bind at 1. unfold open_r at 1. cbn [fs record]. rewrite Hf.
  destruct (readlines content) as [|l0 [|l1 [|l2 more]]];
    [reflexivity|reflexivity|reflexivity|cbn [length] in Hlen; lia].
Qed.

Lemma poll_once_cases context triggerFile w :
  let run := poll_once env context triggerFile w in
  (fs run.2 = fs w \/ fs run.2 = delete triggerFile (fs w) /\ run.1 = Ok tt)
  /\ pages run.2 = pages w
  /\ (forall e, run.1 = Raise e -> is_Exception e = false).
Proof.
  intros run. subst run.
  destruct (fs w !! triggerFile) as [content|] eqn:Hf.
  - destruct (readlines content) as [|l0 [|l1 [|l2 more]]] eqn:Hl.
    1-3: rewrite (poll_once_unparsed _ _ _ _ Hf) by (rewrite Hl; cbn; lia);
         cbn [fst snd fs pages record]; split; [now left|]; split; [reflexivity|];
         intros e [=].
    set (found := record (EvLog (lit "Notification file found: " ++ triggerFile)) w).
    set (d := {| recipient := strip l0; subject := strip l1; body_file := strip l2 |}).
    destruct (send_email_plays env (fs found) context d found eq_refl)
      as (_ & _ & _ & Hp & _).
    destruct (send_email env context d found) as [[[|]|e] w1] eqn:Hs;
      cbn [snd] in Hp.
    + destruct (refused w !! triggerFile) as [text|] eqn:Hr.
      * destruct (poll_once_sent_refused env _ _ _ _ _ _ _ _ _ _ Hf Hr Hl Hs)
          as [-> Hfs].
        cbn [fst snd fs pages record]. rewrite Hfs, Hp.
        split; [now left|]. split; [reflexivity|]. intros e [=].
      * destruct (poll_once_sent env _ _ _ _ _ _ _ _ _ Hf Hr Hl Hs) as [-> Hfs].
        cbn [fst snd fs pages record remove_file]. rewrite Hfs, Hp.
        split; [now right|]. split; [reflexivity|]. intros e [=].
    + destruct (poll_once_not_sent env _ _ _ _ _ _ _ _ _ Hf Hl Hs) as [-> Hfs].
      cbn [fst snd fs pages record]. rewrite Hfs, Hp.
      split; [now left|]. split; [reflexivity|]. intros e [=].
    + destruct (poll_once_interrupted env _ _ _ _ _ _ _ _ _ _ Hf Hl Hs) as [-> Hfs].
      cbn [fst snd]. rewrite Hfs, Hp.
      split; [now left|]. split; [reflexivity|]. intros e' [= <-].
      exact (send_email_raise env _ _ _ _ _ Hs).
  - rewrite (poll_once_absent env _ _ _ Hf). cbn [fst snd].
    split; [now left|]. split; [reflexivity|]. intros e [=].
Qed.

(** X12.  One look of the dispatcher, whatever the files hold and
    whatever the browser does: the file store afterwards is the one
    before, or the one before without the trigger file (and then the
    look ended normally); every other file is as it was; no page is
    opened; and no [Exception] leaves the look. *)
Theorem poll_once_touches_only_trigger context triggerFile w :
  let run := poll_once env context triggerFile w in
  (fs run.2 = fs w \/ fs run.2 = delete triggerFile (fs w) /\ run.1 = Ok tt)
  /\ (forall path, path <> triggerFile -> fs run.2 !! path = fs w !! path)
  /\ pages run.2 = pages w
  /\ (forall e, run.1 = Raise e -> is_Exception e = false).
Proof.
  intros run. destruct (poll_once_cases context triggerFile w) as (Hfs & Hp & He).
  fold run in Hfs, Hp, He. split; [exact Hfs|]. split; [|split; assumption].
  intros path Hne. destruct Hfs as [->|[-> _]]; [reflexivity|].
  now apply lookup_delete_ne.
Qed.

Lemma listen_loop_fs context triggerFile cycles :
  forall w,
    fs (listen_loop env cycles context triggerFile w).2 = fs w
    \/ fs (listen_loop env cycles context triggerFile w).2
       = delete triggerFile (fs w).
Proof.
  induction cycles as [|cycles IH]; intros w; [now left|].
  cbn [listen_loop]. unfold bind, call.
  destruct (poll_once_cases context triggerFile w) as (Hfs & _ & _).
  destruct (poll_once env context triggerFile w) as [[[]|e] w1];
    cbn [fst snd] in Hfs |- *.
  - assert (Hnext : forall w2, fs w2 = fs w1 ->
              fs (listen_loop env cycles context triggerFile w2).2 = fs w
              \/ fs (listen_loop env cycles context triggerFile w2).2
                 = delete triggerFile (fs w)).
    { intros w2 H2. destruct (IH w2) as [->| ->]; rewrite H2;
        destruct Hfs as [->|[-> _]]; auto.
      right. apply delete_delete_eq. }
    destruct (env (trace w1) (Sleep 5)); cbv beta iota zeta.
    + now apply Hnext.
    + cbn [snd fs record]. destruct Hfs as [->|[-> _]]; auto.
  - destruct Hfs as [->|[-> _]]; auto.
Qed.

(** X13.  After any number of rounds of [listen_for_email_requests]
    the file store is the one before, or the one before without the
    trigger file: no other file is ever created, changed or removed. *)
Theorem listen_touches_only_trigger cycles context triggerFile w :
  let run := listen_for_email_requests env cycles context triggerFile w in
  (fs run.2 = fs w \/ fs run.2 = delete triggerFile (fs w))
  /\ (forall path, path <> triggerFile -> fs run.2 !! path = fs w !! path).
Proof.
  intros run.
  assert (H : fs run.2 = fs w \/ fs run.2 = delete triggerFile (fs w)).
  { subst run. unfold listen_for_email_requests, bind, LOG.
    apply (listen_loop_fs context triggerFile cycles
             (record (EvLog (lit "Waiting for email notifications...")) w)). }
  split; [exact H|]. intros path Hne. destruct H as [->| ->]; [reflexivity|].
  now apply lookup_delete_ne.
Qed.

Lemma listen_loop_unparsed context triggerFile content cycles :
  (length (readlines content) < 3)%nat ->
  forall w, fs w !! triggerFile = Some content ->
    fs (listen_loop env cycles context triggerFile w).2 = fs w
    /\ exists evs,
         trace (listen_loop env cycles context triggerFile w).2 = trace w ++ evs
         /\ Forall (fun a => a = Sleep 5) (calls evs)
         /\ ((listen_loop env cycles context triggerFile w).1 = Ok tt ->
             length (calls evs) = cycles).
Proof.
  intros Hlen. induction cycles as [|cycles IH]; intros w Hf.
  - split; [reflexivity|]. exists []. cbn. rewrite app_nil_r. auto.
  - cbn [listen_loop]. unfold bind, call.
    rewrite (poll_once_unparsed _ _ _ _ Hf Hlen).
    set (w1 := record _ (record _ w)).
    destruct (env (trace w1) (Sleep 5)) as [|e] eqn:Ho; cbv beta iota zeta.
    + destruct (IH (record (EvCall (Sleep 5) Done) w1) Hf)
        as (Hfs & evs & Ht & Hall & Hlen').
      split; [exact Hfs|].
      eexists (_ :: _ :: EvCall (Sleep 5) Done :: evs). rewrite Ht.
      split; [subst w1; cbn [trace record]; rewrite <- !app_assoc; reflexivity|].
      split; [cbn [calls]; now constructor|].
      intros Hok. cbn [calls length]. now rewrite Hlen'.
    + cbn [fst snd fs record]. split; [reflexivity|].
      eexists [_; _; EvCall (Sleep 5) (Raised e)].
      split; [subst w1; cbn [trace record]; rewrite <- !app_assoc; reflexivity|].
      split; [cbn [calls]; now repeat constructor|]. intros [=].
Qed.

(** X14.  A trigger file of fewer than three lines is never removed:
    after any number of rounds the file store is unchanged, the only
    browser-side calls were the five-second sleeps, and when the
    rounds ran to their end there was one sleep per round. *)
Theorem short_request_is_retried_forever cycles context triggerFile w content :
  fs w !! triggerFile = Some content ->
  (length (readlines content) < 3)%nat ->
  let run := listen_for_email_requests env cycles context triggerFile w in
  fs run.2 = fs w
  /\ exists evs,
       trace run.2 = trace w ++ evs
       /\ Forall (fun a => a = Sleep 5) (calls evs)
       /\ (run.1 = Ok tt -> length (calls evs) = cycles).
Proof.
  intros Hf Hlen run. subst run. unfold listen_for_email_requests, bind, LOG.
  destruct (listen_loop_unparsed context triggerFile content cycles Hlen
              (record (EvLog (lit "Waiting for email notifications...")) w) Hf)
    as (Hfs & evs & Ht & Hall & Hn).
  split; [exact Hfs|]. exists (EvLog (lit "Waiting for email notifications...") :: evs).
  rewrite Ht. cbn [trace record calls]. rewrite <- app_assoc.
  repeat split; auto.
Qed.

End PollMore.

Lemma short_request_is_retried_forever_witness :
  fs (listen_for_email_requests env_ok 3 the_context trigger_path
        world_short_request).2 = fs world_short_request
  /\ exists evs,
       trace (listen_for_email_requests env_ok 3 the_context trigger_path
                world_short_request).2 = trace world_short_request ++ evs
       /\ Forall (fun a => a = Sleep 5) (calls evs)
       /\ ((listen_for_email_requests env_ok 3 the_context trigger_path
              world_short_request).1 = Ok tt -> length (calls evs) = 3%nat).
Proof.
  apply (short_request_is_retried_forever env_ok 3 the_context trigger_path
           world_short_request
           (lit "alice@example.com" ++ [LF] ++ lit "Project update")).
  - reflexivity.
  - vm_compute. lia.
Defined.

(** ** More about the session *)


Section AuthMore.
Variable env : Env.

Ltac tidy := cbn [trace record add_page pages fs fst snd dispatch raise].

Ltac next_call :=
  match goal with
  | |- context [env ?h ?a] =>
      lazymatch h with
      | context [env _ _] => fail
      | _ => destruct (env h a) as [|?e] eqn:?Hcall
      end
  end; tidy.

Ltac next_clause :=
  match goal with
  | |- context [is_Exception ?e] => destruct (is_Exception e) eqn:?Hexc
  | |- context [is_PlaywrightTimeoutError ?e] =>
      destruct (is_PlaywrightTimeoutError e) eqn:?Htimeout
  end; tidy.

Ltac run_all := repeat (first [next_call | next_clause]).

Ltac trace_grows := rewrite <- ?app_assoc; cbn [app]; reflexivity.

Ltac cut_before :=
  lazymatch goal with
  | |- exists before, ?l = before ++ ?suffix /\ _ =>
      let b := eval cbn [firstn length Nat.sub] in
                 (firstn (length l - length suffix) l) in
      exists b
  | |- exists before, ?l = before ++ ?suffix =>
      let b := eval cbn [firstn length Nat.sub] in
                 (firstn (length l - length suffix) l) in
      exists b
  end.

Lemma setup_browser_run w :
  let run := setup_browser env w in
  exists evs,
    trace run.2 = trace w ++ evs
    /\ fs run.2 = fs w
    /\ pages run.2 = pages w
    /\ Forall (fun a => released a = None) (calls evs)
    /\ match run.1 with
       | Ok (Some _, Some _, Some _) =>
           evs = setup_events /\ answers env (trace w) setup_events
       | Ok (None, None, None) =>
           exists a e before,
             evs = before ++ [EvCall a (Raised e);
                              EvLog (lit "Error setting up browser: " ++ exn_msg e)]
             /\ is_Exception e = true
             /\ raised before = []
       | Ok _ => False
       | Raise e =>
           is_Exception e = false
           /\ exists a before,
                evs = before ++ [EvCall a (Raised e)] /\ raised before = []
       end.
Proof.
  intros run. subst run.
  unfold setup_browser, try_except, bind, call, LOG, ret, raise. tidy.
  run_all.
  all: eexists; split; [trace_grows|]; split; [reflexivity|];
       split; [reflexivity|]; split; [cbn [calls]; repeat constructor|].
  all: lazymatch goal with
       | |- _ = setup_events /\ _ =>
           split; [reflexivity|]; unfold setup_events; cbn [answers]; auto
       | |- exists a e before, _ =>
           eexists; eexists; cut_before; split; [reflexivity|];
           split; [assumption|reflexivity]
       | |- _ = false /\ _ =>
           split; [assumption|]; eexists; cut_before;
           split; reflexivity
       end.
Qed.

(** X15.  [setup_browser] returns three handles or three [None],
    never a mixture.  It returns the handles exactly when starting the
    driver, launching the browser, creating the context and setting
    its default timeout to 2147483647 ms all completed; three [None]
    after logging the first [Exception] raised by one of them; and it
    only raises what is not an [Exception]. *)
Theorem setup_browser_all_or_nothing w :
  let run := setup_browser env w in
  exists evs,
    trace run.2 = trace w ++ evs
    /\ match run.1 with
       | Ok (Some _, Some _, Some _) =>
           evs = setup_events /\ answers env (trace w) setup_events
       | Ok (None, None, None) =>
           exists a e before,
             evs = before ++ [EvCall a (Raised e);
                              EvLog (lit "Error setting up browser: " ++ exn_msg e)]
             /\ is_Exception e = true
             /\ raised before = []
       | Ok _ => False
       | Raise e =>
           is_Exception e = false
           /\ exists a before,
                evs = before ++ [EvCall a (Raised e)] /\ raised before = []
       end.
Proof.
  intros run. destruct (setup_browser_run w) as (evs & Ht & _ & _ & _ & H).
  exists evs. split; assumption.
Qed.

(** X17.  In every run of [authenticate], closing the context is
    called at most once, closing the browser only after closing the
    context was called, and stopping the driver only after closing the
    browser was called; when [setup_browser] did not return the three
    handles, none of them is called. *)
Theorem authenticate_never_releases_twice options w :
  let run := authenticate env options w in
  exists evs,
    trace run.2 = trace w ++ evs
    /\ (releases Driver evs <= releases BrowserProcess evs
        <= releases BrowsingContext evs)%nat
    /\ (releases BrowsingContext evs <= 1)%nat
    /\ ((setup_browser env w).1
        <> Ok (Some the_playwright, Some the_browser, Some the_context) ->
        releases BrowsingContext evs = O).
Proof.
  intros run. subst run.
  destruct (setup_browser_run w) as (evs0 & Ht0 & _ & _ & Hrel0 & Hshape).
  pose proof (releases_none Driver evs0 Hrel0) as Hd0.
  pose proof (releases_none BrowserProcess evs0 Hrel0) as Hb0.
  pose proof (releases_none BrowsingContext evs0 Hrel0) as Hc0.
  unfold authenticate, OutlookConfig_init. unfold bind at 1. unfold ret at 1.
  unfold bind at 1.
  destruct (setup_browser env w) as [[[[[p|] [b|]] [c|]]|e] w1];
    cbn [fst snd] in Ht0, Hshape |- *; try contradiction.
  - (* the session is set up *)
    destruct p, b, c. unfold try_finally.
    set (config := {| email := _ |}).
    destruct (authenticate_outlook_run env the_context config w1)
      as (evs & Ht & _ & Hrel & _).
    pose proof (releases_none Driver evs Hrel) as Hd.
    pose proof (releases_none BrowserProcess evs Hrel) as Hb.
    pose proof (releases_none BrowsingContext evs Hrel) as Hc.
    unfold bind at 1.
    destruct (authenticate_outlook env the_context config w1) as [[[|]|e] w2];
      cbn [fst snd] in Ht.
    all: cbn [truthy andb]; unfold bind, call, LOG; tidy.
    all: repeat match goal with
         | |- context [env ?h ?a] =>
             lazymatch h with
             | context [env _ _] => fail
             | _ => destruct (env h a) as [|?e] eqn:?Hcall
             end
         end; tidy.
    all: eexists; (split; [rewrite Ht, Ht0; trace_grows|]).
    all: rewrite ?releases_app, Hd0, Hb0, Hc0, Hd, Hb, Hc; cbn.
    all: repeat split; try lia; intros H; now contradiction H.
  - (* no session *)
    unfold try_finally, LOG, ret. cbn [truthy andb]. tidy. eexists.
    split; [rewrite Ht0; trace_grows|].
    rewrite !releases_app, Hd0, Hb0, Hc0. cbn. repeat split; lia.
  - exists evs0. split; [exact Ht0|]. rewrite Hd0, Hb0, Hc0. repeat split; lia.
Qed.

(** X18.  After a full setup, when closing the context raises, the
    [finally] block of [authenticate] stops there: the exception leaves
    [authenticate], and neither closing the browser nor stopping the
    driver is called. *)
Theorem authenticate_close_failure_skips_rest options w e :
  answers env (trace w) setup_events ->
  (forall h, env h ContextClose = Raised e) ->
  let run := authenticate env options w in
  run.1 = Raise e
  /\ exists evs,
       trace run.2 = trace w ++ evs
       /\ releases BrowsingContext evs = 1%nat
       /\ releases BrowserProcess evs = O
       /\ releases Driver evs = O.
Proof.
  intros Hans Hclose run. subst run.
  destruct (setup_browser_complete env w Hans) as (w1 & Hsetup & Ht1).
  destruct (authenticate env options w) as [r w3] eqn:Hrun.
  unfold authenticate, OutlookConfig_init in Hrun.
  unfold bind at 1 in Hrun. unfold ret at 1 in Hrun.
  unfold bind at 1 in Hrun. rewrite Hsetup in Hrun. unfold try_finally in Hrun.
  set (config := {| email := _ |}) in Hrun.
  destruct (authenticate_outlook_run env the_context config w1)
    as (evs & Ht & _ & Hrel & _).
  unfold bind at 1 in Hrun.
  destruct (authenticate_outlook env the_context config w1) as [[[|]|e'] w2];
    cbn [fst snd] in Ht;
    cbn [truthy andb] in Hrun; unfold bind, call, LOG in Hrun;
    cbn [trace record add_page pages fs fst snd dispatch raise] in Hrun;
    rewrite Hclose in Hrun; injection Hrun as <- <-;
    (split; [reflexivity|]); eexists;
    (split; [tidy; rewrite Ht, Ht1; trace_grows|]);
    rewrite !releases_app, !(releases_none _ evs Hrel); repeat split.
Qed.

End AuthMore.

Lemma authenticate_close_failure_skips_rest_witness :
  (authenticate env_context_stuck options_password world_start).1
  = Raise (Exn PlaywrightError (lit "Target closed")).
Proof.
  apply (authenticate_close_failure_skips_rest env_context_stuck
           options_password world_start).
  - vm_compute. tauto.
  - reflexivity.
Defined.

Lemma authenticate_releases_once_witness :
  exists evs,
    trace (authenticate env_ok options_password world_start).2
    = trace world_start ++ evs
    /\ forall r, releases r evs = 1%nat.
Proof.
  apply (authenticate_releases_once env_ok options_password world_start).
  - vm_compute. tauto.
  - reflexivity.
  - reflexivity.
Defined.


Section AuthOrder.
Variable env : Env.

Ltac tidy := cbn [trace record add_page pages fs fst snd dispatch raise].

Ltac next_call :=
  match goal with
  | |- context [env ?h ?a] =>
      lazymatch h with
      | context [env _ _] => fail
      | _ => destruct (env h a) as [|?e] eqn:?Hcall
      end
  end; tidy.

Ltac next_clause :=
  match goal with
  | |- context [is_Exception ?e] => destruct (is_Exception e) eqn:?Hexc
  | |- context [is_PlaywrightTimeoutError ?e] =>
      destruct (is_PlaywrightTimeoutError e) eqn:?Htimeout
  end; tidy.

Ltac run_all := repeat (first [next_call | next_clause]).

Ltac trace_grows := rewrite <- ?app_assoc; cbn [app]; reflexivity.

Ltac is_prefix :=
  unfold password_script; cbn [calls app]; eexists; reflexivity.

Lemma authenticate_outlook_calls context config w :
  let run := authenticate_outlook env context config w in
  exists evs,
    trace run.2 = trace w ++ evs
    /\ (pages run.2 = S (pages w)
        \/ pages run.2 = pages w /\ calls evs = [NewPage])
    /\ (username config = [] ->
        (calls evs `prefix_of` password_script (pages w) config true
         \/ calls evs `prefix_of` password_script (pages w) config false)
        /\ (run.1 = Ok true ->
            calls evs = password_script (pages w) config true
            \/ calls evs = password_script (pages w) config false)).
Proof.
  intros run. subst run.
  unfold authenticate_outlook, try_except, new_page, bind, call, LOG, ret, raise.
  tidy.
  destruct (username config) as [|c name] eqn:Hn.
  all: run_all.
  all: eexists; split; [trace_grows|].
  all: split; [first [left; reflexivity | right; split; reflexivity]|].
  all: intros Hempty; try discriminate Hempty.
  all: split;
       [first [left; solve [is_prefix] | right; solve [is_prefix]]
       |intros Hok; try discriminate Hok;
        first [left; reflexivity | right; reflexivity]].
Qed.

(** X19.  Without a username, [authenticate_outlook] issues its calls
    in one fixed order, as far as it gets: new page, go to the mailbox
    URL, fill the email, click submit, wait for the password field, fill
    the password into it, click submit, wait for the "stay signed in"
    element, click it if it showed, wait for the "New mail" landmark.
    A run that returns [True] issued all of them, with or without the
    click. *)
Theorem authenticate_outlook_password_order context config w :
  username config = [] ->
  let run := authenticate_outlook env context config w in
  exists evs,
    trace run.2 = trace w ++ evs
    /\ (calls evs `prefix_of` password_script (pages w) config true
        \/ calls evs `prefix_of` password_script (pages w) config false)
    /\ (run.1 = Ok true ->
        calls evs = password_script (pages w) config true
        \/ calls evs = password_script (pages w) config false).
Proof.
  intros Hn run.
  destruct (authenticate_outlook_calls context config w) as (evs & Ht & _ & H).
  exists evs. split; [exact Ht|]. now apply H.
Qed.

(** X20.  [authenticate_outlook] changes no file.  It opens one page;
    when opening the page raises, the context has the pages it had and
    no further call is made. *)
Theorem authenticate_outlook_opens_one_page context config w :
  let run := authenticate_outlook env context config w in
  fs run.2 = fs w
  /\ exists evs,
       trace run.2 = trace w ++ evs
       /\ (pages run.2 = S (pages w)
           \/ pages run.2 = pages w /\ calls evs = [NewPage]).
Proof.
  intros run.
  destruct (authenticate_outlook_run env context config w) as (_ & _ & Hfs & _).
  destruct (authenticate_outlook_calls context config w) as (evs & Ht & Hp & _).
  split; [exact Hfs|]. exists evs. split; assumption.
Qed.

End AuthOrder.

Lemma authenticate_outlook_password_order_witness :
  exists evs,
    trace (authenticate_outlook env_ok the_context config_password world_start).2
    = trace world_start ++ evs
    /\ (calls evs `prefix_of` password_script O config_password true
        \/ calls evs `prefix_of` password_script O config_password false)
    /\ ((authenticate_outlook env_ok the_context config_password world_start).1
        = Ok true ->
        calls evs = password_script O config_password true
        \/ calls evs = password_script O config_password false).
Proof.
  apply (authenticate_outlook_password_order env_ok the_context config_password
           world_start).
  reflexivity.
Defined.
